(** * BronOS/mvc: request dispatch, middleware chain and JSON helpers

    A shallow embedding of the Go package [mvc] (error.go, middleware.go,
    server.go and the controller file) together with the properties its
    specification states about it.

    Go values are embedded as follows.
    - [int] is [Z]; [string] and [[]byte] are [string].
    - An [error] interface value is either [nil] or a value answering
      [Error()]; it is embedded as [option error].
    - A pointer [*HTTPError] that may be [nil] is [option HTTPError].
    - [http.Header] and [url.Values] (both [map[string][]string]) are
      [gmap string (list string)]; the route variables of gorilla/mux
      ([map[string]string]) are [gmap string string].
    - A handler mutates the response writer, the request behind its pointer
      and whatever application state it closes over; this is written as
      explicit state passing over [Env], and a Go panic is the [Panic]
      outcome of a call. *)

From Stdlib Require Import ZArith String List Lia.
From stdpp Require Import base option strings list gmap fin_maps.

Local Open Scope Z_scope.
Local Open Scope string_scope.
Local Open Scope list_scope.

(** ** error.go *)

(** An [error] value, observed through its only method. *)
Record error : Type := errors_New { Error : string }.

(** [type HTTPError struct { ResponseCode int; Err error }] *)
Record HTTPError : Type := mkHTTPError {
  ResponseCode : Z;
  Err : option error
}.

(** [func NewHTTPError(responseCode int, err error) *HTTPError]: the
    address of a fresh struct literal, hence never [nil]. *)
Definition NewHTTPError (responseCode : Z) (err : option error)
  : option HTTPError :=
  Some {| ResponseCode := responseCode; Err := err |}.

(** The status codes net/http names. *)
Definition StatusOK : Z := 200.
Definition StatusBadRequest : Z := 400.
Definition StatusNotFound : Z := 404.
Definition StatusMethodNotAllowed : Z := 405.
Definition StatusInternalServerError : Z := 500.



(** ** Calls that may panic *)

(** The outcome of a call over a state [S]: it returns a value, or it
    panics; either way the state it leaves behind is known. *)
Inductive Result (S A : Type) : Type :=
| Return (a : A) (s : S)
| Panic (s : S).

Arguments Return {S A} a s.
Arguments Panic {S A} s.

Definition state_of {S A : Type} (res : Result S A) : S :=
  match res with
  | Return _ s => s
  | Panic s => s
  end.

Definition panicked {S A : Type} (res : Result S A) : bool :=
  match res with
  | Return _ _ => false
  | Panic _ => true
  end.

(** ** The response sink: [http.ResponseWriter]

    The interface belongs to net/http, not to this package.  The embedding
    follows the response writer of the net/http server.  The header map
    may be edited until the status line is sent.  [WriteHeader] does
    nothing once a status line is out; otherwise it panics on a status
    code outside [100..999], sends an informational status ([1xx] other
    than [101]) at once without committing the response, and for any
    other code sends the status line together with a snapshot of the
    header map.  [Write] sends [200] first when no status line is out;
    the body is taken only when the status sent allows one (not [1xx],
    [204], [304]), it is taken and not sent when the request is a
    [HEAD], and a write on a connection the peer has left reports an
    error.

    Not followed: a [Content-Length] the handler declares (net/http
    refuses what is written beyond it, and later versions of
    [http.Error] delete it first), hijacked connections, and what the
    server does to the header fields when it sends them (it adds fields
    of its own and leaves [Content-Type] out of a [304]): [sentHeader]
    is the snapshot of the header map.  Whatever is stated below about
    the body or the content type of a response is stated for sinks
    without a declared length and for a status that goes with a body. *)
Record ResponseWriter : Type := mkResponseWriter {
  Header : gmap string (list string);      (* the live map behind Header() *)
  wroteHeader : bool;                      (* status line already sent *)
  Code : Z;                                (* the status sent *)
  sentHeader : gmap string (list string);  (* the headers sent with it *)
  Body : string;                           (* the bytes sent after it *)
  broken : bool;                           (* writes fail: peer is gone *)
  informational : list Z;                  (* the interim statuses sent *)
  head : bool                              (* the request is a HEAD *)
}.

(** A sink nothing was written to, of a request other than [HEAD]. *)
Definition NewResponseWriter : ResponseWriter :=
  {| Header := ∅; wroteHeader := false; Code := 0; sentHeader := ∅;
     Body := ""; broken := false; informational := []; head := false |}.

(** [w.Header().Set(key, value)] *)
Definition Header_Set (key value : string) (w : ResponseWriter)
  : ResponseWriter :=
  {| Header := <[key := [value]]> (Header w);
     wroteHeader := wroteHeader w; Code := Code w;
     sentHeader := sentHeader w; Body := Body w; broken := broken w;
     informational := informational w; head := head w |}.

(** [checkWriteHeaderCode] of net/http panics unless this holds. *)
Definition checkWriteHeaderCode (code : Z) : bool :=
  ((100 <=? code) && (code <=? 999))%Z.

Definition StatusSwitchingProtocols : Z := 101.

(** [w.WriteHeader(code)] *)
Definition WriteHeader (code : Z) (w : ResponseWriter)
  : Result ResponseWriter unit :=
  if wroteHeader w then Return tt w
  else if negb (checkWriteHeaderCode code) then Panic w
  else if ((100 <=? code) && (code <=? 199)
           && negb (code =? StatusSwitchingProtocols))%Z then
    Return tt
      {| Header := Header w; wroteHeader := false; Code := Code w;
         sentHeader := sentHeader w; Body := Body w; broken := broken w;
         informational := informational w ++ [code]; head := head w |}
  else
    Return tt
      {| Header := Header w; wroteHeader := true; Code := code;
         sentHeader := Header w; Body := Body w; broken := broken w;
         informational := informational w; head := head w |}.

(** [bodyAllowedForStatus] of net/http. *)
Definition bodyAllowedForStatus (status : Z) : bool :=
  if ((100 <=? status) && (status <=? 199))%Z then false
  else if (status =? 204)%Z then false
  else if (status =? 304)%Z then false
  else true.

Definition ErrBodyNotAllowed : error :=
  errors_New "http: request method or response status code does not allow body".

Definition ErrWriteFailed : error := errors_New "write: broken pipe".

(** [w.Write(b)], with its [(int, error)] answer. *)
Definition Write (b : string) (w : ResponseWriter)
  : ResponseWriter * (Z * option error) :=
  let w1 := state_of (WriteHeader StatusOK w) in
  if String.eqb b "" then (w1, (0, None))
  else if negb (bodyAllowedForStatus (Code w1)) then
    (w1, (0, Some ErrBodyNotAllowed))
  else if head w1 then (w1, (Z.of_nat (String.length b), None))
  else if broken w1 then (w1, (0, Some ErrWriteFailed))
  else ({| Header := Header w1; wroteHeader := wroteHeader w1;
           Code := Code w1; sentHeader := sentHeader w1;
           Body := Body w1 +:+ b; broken := broken w1;
           informational := informational w1; head := head w1 |},
        (Z.of_nat (String.length b), None)).

(** The end of line [fmt.Fprintln] puts after its operand. *)
Definition newline : string := String (Ascii.ascii_of_nat 10) "".

(** [http.Error(w, error, code)] of net/http: two header fields, the
    status, and the message as one line of plain text.  A panic of
    [WriteHeader] goes through it. *)
Definition http_Error (w : ResponseWriter) (msg : string) (code : Z)
  : Result ResponseWriter unit :=
  let w1 := Header_Set "Content-Type" "text/plain; charset=utf-8" w in
  let w2 := Header_Set "X-Content-Type-Options" "nosniff" w1 in
  match WriteHeader code w2 with
  | Panic w3 => Panic w3
  | Return _ w3 => Return tt (fst (Write (msg +:+ newline) w3))
  end.

(** A sink nothing was sent on and that will take a body: the peer is
    there, the request is not a [HEAD] and no length is declared. *)
Definition ready (w : ResponseWriter) : Prop :=
  wroteHeader w = false /\ broken w = false /\ head w = false /\
  Header w !! "Content-Length" = None.

(** A sink whose status line is out and that takes more of the body. *)
Definition taking (w : ResponseWriter) : Prop :=
  wroteHeader w = true /\ broken w = false /\ head w = false /\
  bodyAllowedForStatus (Code w) = true /\
  sentHeader w !! "Content-Length" = None.

(** ** Requests *)

(** The fields of [*http.Request] the package reads: [r.Method],
    [r.URL.Path], [r.URL.RawQuery], [r.Body], [r.PostForm], and the route
    variables gorilla/mux attaches to a matched request ([mux.Vars(r)]). *)
Record Request : Type := mkRequest {
  Method : string;
  URL_Path : string;
  URL_RawQuery : string;
  ReqBody : string;
  PostForm : gmap string (list string);
  Vars : gmap string string
}.

Section Dispatch.

(** Whatever the handlers of an application share besides the request
    and the response writer. *)
Context {AppState : Type}.

(** What a [Handle] or an [Action] can read and change. *)
Record Env : Type := mkEnv {
  sink : ResponseWriter;   (* w http.ResponseWriter *)
  req : Request;           (* r *http.Request *)
  app : AppState
}.

(** middleware.go: [MiddlewareInterface], one method
    [Handle(w, r) *HTTPError]. *)
Record MiddlewareInterface : Type := mkMiddleware {
  Handle : Env -> Result Env (option HTTPError)
}.

(** [ControllerInterface], one method [Action(w, r) *HTTPError]. *)
Record ControllerInterface : Type := mkController {
  Action : Env -> Result Env (option HTTPError)
}.

(** *** The record of one dispatch

    Ghost state: every call of a [Handle] or an [Action] made while one
    request is served is logged with what came back.  Middleware are
    named by their position in the chain, controllers by the position
    of their route in the table. *)
Inductive Stage : Type :=
| Middleware (i : nat)
| Controller (k : nat).

Inductive Event : Type :=
| Invoke (s : Stage)
| Returned (s : Stage) (herr : option HTTPError) (e : Env)
| Panicked (s : Stage) (e : Env).

Record State : Type := mkState {
  env : Env;
  trace : list Event
}.

(** [http.Handler]: serves one request. *)
Definition Handler : Type := State -> Result State unit.

(** The logged call of a stage. *)
Definition call (s : Stage) (f : Env -> Result Env (option HTTPError))
    (st : State) : Result State (option HTTPError) :=
  match f (env st) with
  | Return herr e' =>
      Return herr {| env := e';
                     trace := trace st ++ [Invoke s; Returned s herr e'] |}
  | Panic e' =>
      Panic {| env := e'; trace := trace st ++ [Invoke s; Panicked s e'] |}
  end.

Definition with_sink (f : ResponseWriter -> ResponseWriter) (st : State)
  : State :=
  {| env := {| sink := f (sink (env st)); req := req (env st);
               app := app (env st) |};
     trace := trace st |}.

(** A call on the response writer made in a state; a panic of the call
    is a panic on the state it left the writer in. *)
Definition on_sink (f : ResponseWriter -> Result ResponseWriter unit)
    (st : State) : Result State unit :=
  match f (sink (env st)) with
  | Return _ w => Return tt (with_sink (fun _ => w) st)
  | Panic w => Panic (with_sink (fun _ => w) st)
  end.

(** *** server.go: the two closures

    [AddMiddleware] hands the router
    [func(next http.Handler) http.Handler { ... }]; its body is below,
    [i] being the ghost name of the middleware.  [herr.Err.Error()] is a
    method call on an interface value and panics when [herr.Err] is
    [nil]; the arguments of [http.Error] are evaluated before the call,
    so nothing is written then.  The closure has no [recover]: a panic
    of the middleware or of [http.Error] goes through it. *)
Definition middlewareFunc (i : nat) (middleware : MiddlewareInterface)
    (next : Handler) : Handler :=
  fun st =>
    match call (Middleware i) (Handle middleware) st with
    | Panic st' => Panic st'
    | Return None st' => next st'
    | Return (Some herr) st' =>
        match Err herr with
        | None => Panic st'
        | Some err =>
            on_sink (fun w => http_Error w (Error err) (ResponseCode herr))
                    st'
        end
    end.

(** The function [AddRoute] hands to [HandleFunc]; [k] is the ghost name
    of the route. *)
Definition routeFunc (k : nat) (controller : ControllerInterface)
  : Handler :=
  fun st =>
    match call (Controller k) (Action controller) st with
    | Panic st' => Panic st'
    | Return None st' => Return tt st'
    | Return (Some herr) st' =>
        match Err herr with
        | None => Panic st'
        | Some err =>
            on_sink (fun w => http_Error w (Error err) (ResponseCode herr))
                    st'
        end
    end.

(** *** The routing layer

    [mux.Router] of gorilla/mux is not part of the repository; the
    package calls its [Use], [HandleFunc] and [Methods] and installs it
    as the handler of the server.  The definitions of this part follow
    the specification's account of that layer. *)

(** Modelled from the spec: a route entry of the external routing
    capability: a path pattern, the set of allowed methods and the
    handler bound to it. *)
Record Route : Type := mkRoute {
  tpl : string;
  methods : list string;
  handler : Handler
}.

(** Modelled from the spec: the state of the external router, the route
    table and the middleware chain, both in registration order. *)
Record Router : Type := mkRouter {
  routes : list Route;
  middlewares : list (Handler -> Handler)
}.

(** Modelled from the spec: [mux.NewRouter()], nothing registered. *)
Definition NewRouter : Router := {| routes := []; middlewares := [] |}.

(** Modelled from the spec: [router.Use(mwf)], which appends to the
    chain (insertion order is execution order). *)
Definition Use (mwf : Handler -> Handler) (rt : Router) : Router :=
  {| routes := routes rt; middlewares := middlewares rt ++ [mwf] |}.

(** Modelled from the spec: [router.HandleFunc(path, f).Methods(ms...)],
    which registers one route entry after those already there. *)
Definition HandleFunc (path : string) (f : Handler) (ms : list string)
    (rt : Router) : Router :=
  {| routes := routes rt ++ [ {| tpl := path; methods := ms;
                                 handler := f |} ];
     middlewares := middlewares rt |}.

(** The pattern matcher of the routing layer, left open: given a pattern
    and the path of a request it decides match or no match and, on a
    match, gives the values of the named placeholders. *)
Variable matchTemplate : string -> string -> option (gmap string string).

Inductive RouteMatch : Type :=
| Matched (rt : Route) (vars : gmap string string)
| MethodMismatch
| NotFound.

(** Modelled from the spec: matching of the external routing capability.
    The first registered route whose pattern accepts the path and whose
    method set holds the method of the request wins; a request refused
    by the method sets alone is a method mismatch, any other one is not
    found. *)
Fixpoint Match (rs : list Route) (rq : Request) : RouteMatch :=
  match rs with
  | [] => NotFound
  | rt :: rest =>
      match matchTemplate (tpl rt) (URL_Path rq) with
      | None => Match rest rq
      | Some vars =>
          if bool_decide (Method rq ∈ methods rt) then Matched rt vars
          else match Match rest rq with
               | NotFound => MethodMismatch
               | found => found
               end
      end
  end.

(** The request a matched route is served with: the values of the
    placeholders are attached to it ([mux.Vars(r)] reads them). *)
Definition withVars (vars : gmap string string) (e : Env) : Env :=
  {| sink := sink e;
     req := {| Method := Method (req e);
               URL_Path := URL_Path (req e);
               URL_RawQuery := URL_RawQuery (req e);
               ReqBody := ReqBody (req e);
               PostForm := PostForm (req e);
               Vars := vars |};
     app := app e |}.

Definition setVars (vars : gmap string string) (st : State) : State :=
  {| env := withVars vars (env st); trace := trace st |}.

(** Modelled from the spec: the chain of the external router around the
    handler of a route; each middleware is a gate around the rest of the
    chain, and the one registered first is the outermost. *)
Definition chain (mws : list (Handler -> Handler)) (h : Handler)
  : Handler :=
  fold_right (fun mwf next => mwf next) h mws.

(** Modelled from the spec: [router.ServeHTTP(w, r)], the dispatch of
    one request by the external router.  A matched request goes through
    the chain to the handler of its route; a request that matches no
    route gets the layer's own answer ([404], or [405] on a method
    mismatch) and runs neither middleware nor controller. *)
Definition ServeHTTP (rt : Router) : Handler :=
  fun st =>
    match Match (routes rt) (req (env st)) with
    | Matched route vars =>
        chain (middlewares rt) (handler route) (setVars vars st)
    | MethodMismatch => on_sink (WriteHeader StatusMethodNotAllowed) st
    | NotFound =>
        on_sink (fun w => http_Error w "404 page not found" StatusNotFound)
                st
    end.

(** *** server.go: [HTTPServer]

    [type HTTPServer struct { server *http.Server; router *mux.Router }].
    The [http.Server] only carries the listening configuration and the
    router as its handler; it has no part in the dispatch of a request
    and is left out, and so is the configuration [NewHTTPServer] copies
    into it. *)
Record HTTPServer : Type := mkHTTPServer {
  router : Router
}.

(** [func NewHTTPServer(config *HTTPServerConfig) *HTTPServer] *)
Definition NewHTTPServer : HTTPServer := {| router := NewRouter |}.

(** [func (s *HTTPServer) GetRouter() *mux.Router] *)
Definition GetRouter (s : HTTPServer) : Router := router s.

(** [func (s *HTTPServer) AddMiddleware(middleware MiddlewareInterface)] *)
Definition AddMiddleware (middleware : MiddlewareInterface)
    (s : HTTPServer) : HTTPServer :=
  {| router :=
       Use (middlewareFunc (length (middlewares (router s))) middleware)
           (router s) |}.

(** [func (s *HTTPServer) AddRoute(route string,
      controller ControllerInterface, methods ...string)] *)
Definition AddRoute (route : string) (controller : ControllerInterface)
    (ms : list string) (s : HTTPServer) : HTTPServer :=
  {| router :=
       HandleFunc route
         (routeFunc (length (routes (router s))) controller) ms
         (router s) |}.

(** The setup phase of an application: calls of [AddMiddleware] and
    [AddRoute] on a new server, in any order. *)
Inductive Registration : Type :=
| RegMiddleware (middleware : MiddlewareInterface)
| RegRoute (route : string) (controller : ControllerInterface)
           (ms : list string).

Definition register (s : HTTPServer) (reg : Registration) : HTTPServer :=
  match reg with
  | RegMiddleware m => AddMiddleware m s
  | RegRoute route c ms => AddRoute route c ms s
  end.

Definition configure (regs : list Registration) : HTTPServer :=
  fold_left register regs NewHTTPServer.

(** The middleware and the route entries a setup registers, in order. *)
Definition middleware_of (regs : list Registration)
  : list MiddlewareInterface :=
  omap (fun reg => match reg with
                   | RegMiddleware m => Some m
                   | RegRoute _ _ _ => None
                   end) regs.

Definition routes_of (regs : list Registration)
  : list (string * ControllerInterface * list string) :=
  omap (fun reg => match reg with
                   | RegMiddleware _ => None
                   | RegRoute route c ms => Some (route, c, ms)
                   end) regs.

(** One request served by the server: the handler of [http.Server] is
    the router, and the log starts empty. *)
Definition Serve (s : HTTPServer) (e : Env) : Result State unit :=
  ServeHTTP (router s) {| env := e; trace := [] |}.

(** The uniform translation of an Error Model, as the specification
    words it: what [http.Error(w, herr.Err.Error(), herr.ResponseCode)]
    does to a state, the panics of the expression included. *)
Definition translate (herr : HTTPError) (st : State) : Result State unit :=
  match Err herr with
  | None => Panic st
  | Some err =>
      on_sink (fun w => http_Error w (Error err) (ResponseCode herr)) st
  end.

(** *** Reading the record of a dispatch *)

(** The middleware called, in the order of the calls. *)
Definition middleware_calls (t : list Event) : list nat :=
  omap (fun ev => match ev with
                  | Invoke (Middleware i) => Some i
                  | _ => None
                  end) t.

(** [passed ms e0 n t e]: started on [e0], the first [n] middleware of
    [ms] were called one after the other, each on what the one before
    left, and each returned [nil]; [t] is the record of these calls and
    [e] what the last of them left. *)
Inductive passed (ms : list MiddlewareInterface) (e0 : Env)
  : nat -> list Event -> Env -> Prop :=
| passed_none : passed ms e0 0 [] e0
| passed_next n t e m e' :
    passed ms e0 n t e ->
    ms !! n = Some m ->
    Handle m e = Return None e' ->
    passed ms e0 (S n)
      (t ++ [Invoke (Middleware n); Returned (Middleware n) None e']) e'.

(** [served ms k c e0 res]: [res] is one of the five ways in which a
    request, matched to route [k] with controller [c] and entering the
    chain [ms] as [e0], can end: after all of [ms] passed the controller
    returned [nil], returned an Error Model or panicked; or after the
    first [j] of [ms] passed, middleware [j] returned an Error Model or
    panicked. *)
Inductive served (ms : list MiddlewareInterface) (k : nat)
    (c : ControllerInterface) (e0 : Env) : Result State unit -> Prop :=
| served_done t e e' :
    passed ms e0 (length ms) t e ->
    Action c e = Return None e' ->
    served ms k c e0
      (Return tt
         {| env := e';
            trace := t ++ [Invoke (Controller k);
                           Returned (Controller k) None e'] |})
| served_failed t e herr e' :
    passed ms e0 (length ms) t e ->
    Action c e = Return (Some herr) e' ->
    served ms k c e0
      (translate herr
         {| env := e';
            trace := t ++ [Invoke (Controller k);
                           Returned (Controller k) (Some herr) e'] |})
| served_crashed t e e' :
    passed ms e0 (length ms) t e ->
    Action c e = Panic e' ->
    served ms k c e0
      (Panic
         {| env := e';
            trace := t ++ [Invoke (Controller k);
                           Panicked (Controller k) e'] |})
| served_stopped j t e m herr e' :
    passed ms e0 j t e ->
    ms !! j = Some m ->
    Handle m e = Return (Some herr) e' ->
    served ms k c e0
      (translate herr
         {| env := e';
            trace := t ++ [Invoke (Middleware j);
                           Returned (Middleware j) (Some herr) e'] |})
| served_aborted j t e m e' :
    passed ms e0 j t e ->
    ms !! j = Some m ->
    Handle m e = Panic e' ->
    served ms k c e0
      (Panic
         {| env := e';
            trace := t ++ [Invoke (Middleware j);
                           Panicked (Middleware j) e'] |}).

(** [answer f s e x]: [x] is the record of what the call [f e] of stage
    [s] came to. *)
Inductive answer (f : Env -> Result Env (option HTTPError)) (s : Stage)
    (e : Env) : Event -> Prop :=
| answer_returned herr e' :
    f e = Return herr e' -> answer f s e (Returned s herr e')
| answer_panicked e' :
    f e = Panic e' -> answer f s e (Panicked s e').

(** The route entry [AddRoute] adds as entry [k]. *)
Definition entry (k : nat) (x : string * ControllerInterface * list string)
  : Route :=
  {| tpl := x.1.1; methods := x.2; handler := routeFunc k x.1.2 |}.

End Dispatch.

(** ** The controller file: [AbstractController], [AbstractJSONController] *)

Section Controllers.

(** The typed record a request is bound to ([schema interface{}]). *)
Context {Schema : Type}.

(** The codecs the helpers call.  They belong to other packages
    (gorilla/schema, net/url, net/http, encoding/json, beego/validation)
    and are taken as they are; each answers with the value it leaves
    behind and the [error] it reports. *)
Context {Decoder : Type}.

(** [schema.NewDecoder()] *)
Variable NewDecoder : Decoder.

(** [decoder.Decode(dst, src) error] *)
Variable Decoder_Decode :
  Decoder -> Schema -> gmap string (list string) -> Schema * option error.

(** [r.URL.Query()], on the raw query string; it has no error result. *)
Variable URL_Query : string -> gmap string (list string).

(** [r.ParseForm() error], which fills [r.PostForm]. *)
Variable ParseForm : Request -> Request * option error.

(** [json.NewDecoder(r.Body).Decode(schema) error]: the record, what is
    left of the body, the error. *)
Variable json_Decode : string -> Schema -> Schema * string * option error.

(** [json.Marshal(schema) ([]byte, error)] *)
Variable json_Marshal : Schema -> string * option error.

(** [validation.Validation{}.Valid(schema) (bool, error)] *)
Variable valid_Valid : Schema -> bool * option error.

(** [type AbstractController struct { schemaDecoder *schema.Decoder }] *)
Record AbstractController : Type := mkAbstractController {
  schemaDecoder : option Decoder
}.

(** [func (c *AbstractController) getSchemaDecoder() *schema.Decoder]:
    the decoder, and the controller with the decoder stored. *)
Definition getSchemaDecoder (c : AbstractController)
  : Decoder * AbstractController :=
  match schemaDecoder c with
  | None => (NewDecoder, {| schemaDecoder := Some NewDecoder |})
  | Some d => (d, c)
  end.

(** [func (c *AbstractController) ScanQuery(r, schema) *HTTPError] *)
Definition ScanQuery (c : AbstractController) (r : Request) (schema : Schema)
  : AbstractController * Schema * option HTTPError :=
  let '(d, c1) := getSchemaDecoder c in
  let '(schema1, err) := Decoder_Decode d schema (URL_Query (URL_RawQuery r)) in
  match err with
  | Some _ => (c1, schema1, NewHTTPError StatusBadRequest err)
  | None => (c1, schema1, None)
  end.

(** [func (c *AbstractController) ScanVars(r, schema) *HTTPError];
    [mVars[k] = []string{v}] for every route variable. *)
Definition ScanVars (c : AbstractController) (r : Request) (schema : Schema)
  : AbstractController * Schema * option HTTPError :=
  let vars := Vars r in
  let mVars : gmap string (list string) := (fun v => [v]) <$> vars in
  let '(d, c1) := getSchemaDecoder c in
  let '(schema1, err) := Decoder_Decode d schema mVars in
  match err with
  | Some _ => (c1, schema1, NewHTTPError StatusBadRequest err)
  | None => (c1, schema1, None)
  end.

(** [func (c *AbstractController) ScanForm(r, schema) *HTTPError] *)
Definition ScanForm (c : AbstractController) (r : Request) (schema : Schema)
  : AbstractController * Request * Schema * option HTTPError :=
  let '(r1, err) := ParseForm r in
  match err with
  | Some _ => (c, r1, schema, NewHTTPError StatusBadRequest err)
  | None =>
      let '(d, c1) := getSchemaDecoder c in
      let '(schema1, err1) := Decoder_Decode d schema (PostForm r1) in
      match err1 with
      | Some _ => (c1, r1, schema1, NewHTTPError StatusBadRequest err1)
      | None => (c1, r1, schema1, None)
      end
  end.

Definition setBody (b : string) (r : Request) : Request :=
  {| Method := Method r; URL_Path := URL_Path r;
     URL_RawQuery := URL_RawQuery r; ReqBody := b;
     PostForm := PostForm r; Vars := Vars r |}.

(** [func (c *AbstractJSONController) ScanJSONBody(r, schema) *HTTPError] *)
Definition ScanJSONBody (r : Request) (schema : Schema)
  : Request * Schema * option HTTPError :=
  let '(schema1, rest, err) := json_Decode (ReqBody r) schema in
  let r1 := setBody rest r in
  match err with
  | Some _ => (r1, schema1, NewHTTPError StatusBadRequest err)
  | None =>
      let '(b, err1) := valid_Valid schema1 in
      match err1 with
      | Some _ => (r1, schema1, NewHTTPError StatusBadRequest err1)
      | None =>
          if negb b then
            (r1, schema1,
             NewHTTPError StatusBadRequest
               (Some (errors_New "Schema validation error")))
          else (r1, schema1, None)
      end
  end.

(** [func (c *AbstractJSONController) WriteJSONResponse(w, schema,
      responseCode *int) *HTTPError]; a panic of [w.WriteHeader] goes
    through it, and the answer of [w.Write] is dropped. *)
Definition WriteJSONResponse (w : ResponseWriter) (schema : Schema)
    (responseCode : option Z)
  : Result ResponseWriter (option HTTPError) :=
  let '(b, err) := json_Marshal schema in
  match err with
  | Some _ => Return (NewHTTPError StatusInternalServerError err) w
  | None =>
      let w1 := Header_Set "Content-Type" "application/json" w in
      let code := match responseCode with
                  | Some given => given
                  | None => 200
                  end in
      match WriteHeader code w1 with
      | Panic w2 => Panic w2
      | Return _ w2 =>
          let '(w3, _) := Write b w2 in
          Return None w3
      end
  end.

End Controllers.

(** The Error Model of a client error with a given cause. *)
Definition bad_request (err : error) : HTTPError :=
  {| ResponseCode := StatusBadRequest; Err := Some err |}.


(** ** A small application

    Concrete handlers, requests and codecs on which the definitions above
    are run. *)
Module Sample.

(** Templates without placeholders: a path fits when it is the template. *)
Definition matchExact (template path : string)
  : option (gmap string string) :=
  if String.eqb template path then Some ∅ else None.

Definition getItems : Request :=
  {| Method := "GET"; URL_Path := "/items"; URL_RawQuery := "";
     ReqBody := ""; PostForm := ∅; Vars := ∅ |}.

Definition postItems : Request :=
  {| Method := "POST"; URL_Path := "/items"; URL_RawQuery := "";
     ReqBody := "7"; PostForm := ∅; Vars := ∅ |}.

Definition incoming (rq : Request) : @Env unit :=
  {| sink := NewResponseWriter; req := rq; app := tt |}.

Definition writes (b : string) (e : @Env unit) : @Env unit :=
  {| sink := fst (Write b (sink e)); req := req e; app := app e |}.

(** Lets every request through. *)
Definition allow : @MiddlewareInterface unit :=
  {| Handle := fun e => Return None e |}.

(** Lets every request through after adding a response header. *)
Definition stamp : @MiddlewareInterface unit :=
  {| Handle := fun e =>
       Return None {| sink := Header_Set "X-Served-By" "mvc" (sink e);
                      req := req e; app := app e |} |}.

(** Refuses every request. *)
Definition forbidden : HTTPError :=
  {| ResponseCode := 403; Err := Some (errors_New "forbidden") |}.

Definition deny : @MiddlewareInterface unit :=
  {| Handle := fun e => Return (Some forbidden) e |}.

(** Refuses every request with an Error Model that has no cause. *)
Definition causeless : HTTPError :=
  {| ResponseCode := 403; Err := None |}.

Definition denyBlank : @MiddlewareInterface unit :=
  {| Handle := fun e => Return (Some causeless) e |}.

(** Answers by itself and lets the request through all the same. *)
Definition eager : @MiddlewareInterface unit :=
  {| Handle := fun e => Return None (writes "hello" e) |}.

(** Writes its answer and reports success. *)
Definition hello : @ControllerInterface unit :=
  {| Action := fun e => Return None (writes "hello" e) |}.

(** Fails without writing. *)
Definition teapot : HTTPError :=
  {| ResponseCode := 418; Err := Some (errors_New "I am a teapot") |}.

Definition refuse : @ControllerInterface unit :=
  {| Action := fun e => Return (Some teapot) e |}.

(** Fails with an Error Model that has no cause. *)
Definition refuseBlank : @ControllerInterface unit :=
  {| Action := fun e => Return (Some causeless) e |}.

(** A schema of one number, and codecs for it: the JSON texts [7] and
    [12] decode, anything else is malformed; numbers from ten on fail
    validation; a negative number cannot be encoded. *)
Definition json_Decode (body : string) (schema : Z)
  : Z * string * option error :=
  if String.eqb body "7" then (7, "", None)
  else if String.eqb body "12" then (12, "", None)
  else (schema, "", Some (errors_New "invalid character"))%Z.

Definition valid_Valid (schema : Z) : bool * option error :=
  (Z.ltb schema 10, None).

Definition json_Marshal (schema : Z) : string * option error :=
  if Z.ltb schema 0 then ("", Some (errors_New "unsupported value"))
  else if Z.eqb schema 7 then ("7", None)
  else ("12", None).

(** A form decoder for the same schema: the field [n] must be [7]. *)
Definition Decoder_Decode (d : unit) (schema : Z)
    (src : gmap string (list string)) : Z * option error :=
  match src !! "n" with
  | Some ["7"] => (7, None)
  | Some _ => (schema, Some (errors_New "schema: error converting value"))
  | None => (schema, None)
  end.

Definition URL_Query (raw : string) : gmap string (list string) :=
  if String.eqb raw "n=7" then {[ "n" := ["7"] ]}
  else if String.eqb raw "" then ∅
  else {[ "n" := [raw] ]}.

Definition ParseForm (r : Request) : Request * option error :=
  if String.eqb (ReqBody r) "%" then
    (r, Some (errors_New "invalid URL escape"))
  else (r, None).

(** Refuses every request with a status no response can have. *)
Definition zero : HTTPError :=
  {| ResponseCode := 0; Err := Some (errors_New "boom") |}.

Definition denyZero : @MiddlewareInterface unit :=
  {| Handle := fun e => Return (Some zero) e |}.

Definition refuseZero : @ControllerInterface unit :=
  {| Action := fun e => Return (Some zero) e |}.


(** Setups of the application, and the states its stages leave. *)
Definition site : list (@Registration unit) :=
  [RegMiddleware stamp; RegRoute "/items" hello ["GET"]].

Definition guarded : list (@Registration unit) :=
  [RegMiddleware stamp; RegMiddleware deny; RegMiddleware allow;
   RegRoute "/items" hello ["GET"]].

Definition blocked : list (@Registration unit) :=
  [RegMiddleware stamp; RegMiddleware denyBlank;
   RegRoute "/items" hello ["GET"]].

Definition doubled : list (@Registration unit) :=
  [RegMiddleware eager; RegMiddleware deny;
   RegRoute "/items" hello ["GET"]].

Definition failing : list (@Registration unit) :=
  [RegMiddleware stamp; RegRoute "/items" refuse ["GET"]].

Definition failingBlank : list (@Registration unit) :=
  [RegMiddleware stamp; RegRoute "/items" refuseBlank ["GET"]].

Definition zeroed : list (@Registration unit) :=
  [RegMiddleware stamp; RegMiddleware denyZero;
   RegRoute "/items" hello ["GET"]].

Definition failingZero : list (@Registration unit) :=
  [RegMiddleware stamp; RegRoute "/items" refuseZero ["GET"]].

(** Two middleware that pass, and a controller. *)
Definition chained : list (@Registration unit) :=
  [RegMiddleware stamp; RegMiddleware allow;
   RegRoute "/items" hello ["GET"]].

Definition stamped : @Env unit :=
  {| sink := Header_Set "X-Served-By" "mvc" NewResponseWriter;
     req := getItems; app := tt |}.

Definition greeted : @Env unit := writes "hello" stamped.



Definition twelve : Request :=
  {| Method := "POST"; URL_Path := "/items"; URL_RawQuery := "";
     ReqBody := "12"; PostForm := ∅; Vars := ∅ |}.

Definition badForm : Request :=
  {| Method := "POST"; URL_Path := "/items"; URL_RawQuery := "n=x";
     ReqBody := "%"; PostForm := ∅; Vars := {[ "n" := "x" ]} |}.

Definition fresh : @AbstractController unit := {| schemaDecoder := None |}.


End Sample.

(** ** More readings, and more of the small application *)

Module Cases.

Import Sample.

(** Panics after having written part of an answer. *)
Definition crash : @MiddlewareInterface unit :=
  {| Handle := fun e => Panic (writes "partial" e) |}.

(** Panics at once. *)
Definition crashing : @ControllerInterface unit :=
  {| Action := fun e => Panic e |}.

Definition faulty : list (@Registration unit) :=
  [RegMiddleware stamp; RegMiddleware crash; RegMiddleware allow;
   RegRoute "/items" hello ["GET"]].

(** The setup of [site], the route registered before the middleware. *)
Definition late : list (@Registration unit) :=
  [RegRoute "/items" hello ["GET"]; RegMiddleware stamp].


(** Answers with a record that cannot be encoded and hands on what
    [WriteJSONResponse] returns. *)
Definition unencodable : @ControllerInterface unit :=
  {| Action := fun e =>
       match WriteJSONResponse json_Marshal (sink e) (-1) None with
       | Return herr w => Return herr {| sink := w; req := req e; app := app e |}
       | Panic w => Panic {| sink := w; req := req e; app := app e |}
       end |}.

(** Decoders told apart by a number; all of them decode alike. *)
Definition decodeWith (d : nat) : Z -> gmap string (list string)
    -> Z * option error :=
  Decoder_Decode tt.

Definition holding : @AbstractController nat :=
  {| schemaDecoder := Some 5%nat |}.

Definition empty : @AbstractController nat := {| schemaDecoder := None |}.

(** A request matched by the pattern [/items/{n}]. *)
Definition itemSeven : Request :=
  {| Method := "GET"; URL_Path := "/items/7"; URL_RawQuery := "n=7";
     ReqBody := ""; PostForm := ∅; Vars := {[ "n" := "7" ]} |}.


(** A route registered without a method before one for [GET]. *)
Definition dead : list (@Registration unit) :=
  [RegRoute "/items" hello []; RegRoute "/items" refuse ["GET"]].

End Cases.

(** * Properties *)

(** ** The response sink *)

Lemma append_empty (s : string) : s +:+ "" = s.
Proof.
  induction s as [|a s IH]; [reflexivity|].
  change (String a (s +:+ "") = String a s). now rewrite IH.
Qed.

(** A line of text is not empty. *)
Lemma line_not_empty (msg : string) : String.eqb (msg +:+ newline) "" = false.
Proof. now destruct msg. Qed.

(** The codes [checkWriteHeaderCode] lets through. *)
Lemma checkWriteHeaderCode_spec (code : Z) :
  checkWriteHeaderCode code = true <-> 100 <= code <= 999.
Proof.
  unfold checkWriteHeaderCode.
  rewrite andb_true_iff, !Z.leb_le. tauto.
Qed.

(** The codes of 200 and above that go with a body. *)
Lemma bodyAllowedForStatus_final (code : Z) :
  200 <= code ->
  bodyAllowedForStatus code = true <-> code <> 204 /\ code <> 304.
Proof.
  intros Hc. unfold bodyAllowedForStatus.
  replace (code <=? 199)%Z with false by (symmetry; apply Z.leb_gt; lia).
  rewrite andb_false_r.
  destruct (Z.eqb_spec code 204) as [->|H204]; [split; [discriminate | lia]|].
  destruct (Z.eqb_spec code 304) as [->|H304]; [split; [discriminate | lia]|].
  tauto.
Qed.

(** Once the status line is out, [WriteHeader] does nothing, whatever
    the code. *)
Lemma WriteHeader_again (code : Z) (w : ResponseWriter) :
  wroteHeader w = true -> WriteHeader code w = Return tt w.
Proof. intros Hw. unfold WriteHeader. now rewrite Hw. Qed.

(** Before that, a code outside [100..999] makes it panic, the sink
    left as it was. *)
Lemma WriteHeader_invalid (code : Z) (w : ResponseWriter) :
  wroteHeader w = false -> checkWriteHeaderCode code = false ->
  WriteHeader code w = Panic w.
Proof. intros Hw Hc. unfold WriteHeader. now rewrite Hw, Hc. Qed.

(** And a code from 200 on is sent with the headers as they are. *)
Lemma WriteHeader_final (code : Z) (w : ResponseWriter) :
  wroteHeader w = false -> 200 <= code <= 999 ->
  WriteHeader code w =
    Return tt
      {| Header := Header w; wroteHeader := true; Code := code;
         sentHeader := Header w; Body := Body w; broken := broken w;
         informational := informational w; head := head w |}.
Proof.
  intros Hw Hc. unfold WriteHeader, checkWriteHeaderCode. rewrite Hw.
  replace (100 <=? code)%Z with true by (symmetry; apply Z.leb_le; lia).
  replace (code <=? 999)%Z with true by (symmetry; apply Z.leb_le; lia).
  replace (code <=? 199)%Z with false by (symmetry; apply Z.leb_gt; lia).
  reflexivity.
Qed.

(** [WriteHeader] panics on an invalid code before the status line is
    out, and in no other case. *)
Lemma WriteHeader_panics (code : Z) (w : ResponseWriter) :
  panicked (WriteHeader code w) =
  negb (wroteHeader w) && negb (checkWriteHeaderCode code).
Proof.
  unfold WriteHeader. destruct (wroteHeader w); [reflexivity|].
  destruct (checkWriteHeaderCode code); [|reflexivity]. simpl.
  now destruct (_ && _).
Qed.

(** Whatever it does, it leaves the header map, the body and the
    connection as they are. *)
Lemma WriteHeader_keeps (code : Z) (w : ResponseWriter) :
  let w' := state_of (WriteHeader code w) in
  Header w' = Header w /\ Body w' = Body w /\ broken w' = broken w /\
  head w' = head w.
Proof.
  unfold WriteHeader. destruct (wroteHeader w); [now repeat split|].
  destruct (checkWriteHeaderCode code); [|now repeat split]. simpl.
  now destruct (_ && _).
Qed.

(** A write cannot change a status line that is out. *)
Lemma Write_status (b : string) (w : ResponseWriter) :
  wroteHeader w = true ->
  let w' := fst (Write b w) in
  wroteHeader w' = true /\ Code w' = Code w /\ sentHeader w' = sentHeader w.
Proof.
  intros Hw w'. subst w'. unfold Write.
  rewrite (WriteHeader_again _ _ Hw). cbn [state_of].
  destruct (String.eqb b ""); [now repeat split|].
  destruct (bodyAllowedForStatus (Code w)); [|now repeat split].
  destruct (head w); [now repeat split|].
  destruct (broken w); now repeat split.
Qed.

(** A write on a sink that takes more of the body only adds to it. *)
Lemma Write_taking (b : string) (w : ResponseWriter) :
  taking w ->
  fst (Write b w) =
    {| Header := Header w; wroteHeader := true; Code := Code w;
       sentHeader := sentHeader w; Body := Body w +:+ b; broken := false;
       informational := informational w; head := false |}.
Proof.
  intros (Hw & Hbr & Hh & Hallowed & _). unfold Write.
  rewrite (WriteHeader_again _ _ Hw). cbn [state_of].
  rewrite Hallowed, Hh, Hbr. cbn [negb].
  destruct (String.eqb_spec b "") as [->|_]; cbn [fst].
  - rewrite append_empty. destruct w; simpl in *. now subst.
  - now rewrite Hw.
Qed.

(** A write after a status that goes without a body is refused. *)
Lemma Write_refused (b : string) (w : ResponseWriter) :
  wroteHeader w = true -> bodyAllowedForStatus (Code w) = false ->
  fst (Write b w) = w.
Proof.
  intros Hw Hno. unfold Write.
  rewrite (WriteHeader_again _ _ Hw). cbn [state_of].
  rewrite Hno. now destruct (String.eqb b "").
Qed.

(** A write on a connection the peer has left reports it. *)
Lemma Write_broken (b : string) (w : ResponseWriter) :
  wroteHeader w = true -> bodyAllowedForStatus (Code w) = true ->
  head w = false -> broken w = true -> b <> "" ->
  Write b w = (w, (0, Some ErrWriteFailed)).
Proof.
  intros Hw Hallowed Hh Hbr Hb. unfold Write.
  rewrite (WriteHeader_again _ _ Hw). cbn [state_of].
  rewrite Hallowed, Hh, Hbr.
  now destruct (String.eqb_spec b "").
Qed.

(** [http.Error] panics exactly when its [WriteHeader] does. *)
Lemma http_Error_panics (w : ResponseWriter) (msg : string) (code : Z) :
  panicked (http_Error w msg code) =
  negb (wroteHeader w) && negb (checkWriteHeaderCode code).
Proof.
  unfold http_Error. cbv zeta.
  change (wroteHeader w)
    with (wroteHeader
            (Header_Set "X-Content-Type-Options" "nosniff"
               (Header_Set "Content-Type" "text/plain; charset=utf-8" w))).
  rewrite <- WriteHeader_panics. now destruct (WriteHeader code _).
Qed.

(** A call that does not panic returns. *)
Lemma Result_returns {S : Type} (res : Result S unit) :
  panicked res = false -> res = Return tt (state_of res).
Proof. destruct res as [[] s|s]; [reflexivity | discriminate]. Qed.

Lemma Result_panics {S A : Type} (res : Result S A) :
  panicked res = true -> res = Panic (state_of res).
Proof. destruct res as [a s|s]; [discriminate | reflexivity]. Qed.

(** What [http.Error] leaves on a sink nothing was sent on, for a code
    from 200 on. *)
Lemma http_Error_fresh (w : ResponseWriter) (msg : string) (code : Z) :
  ready w -> 200 <= code <= 999 ->
  let w' := state_of (http_Error w msg code) in
  http_Error w msg code = Return tt w' /\
  Code w' = code /\
  sentHeader w' !! "Content-Type" = Some ["text/plain; charset=utf-8"] /\
  sentHeader w' !! "X-Content-Type-Options" = Some ["nosniff"] /\
  wroteHeader w' = true /\
  (bodyAllowedForStatus code = true ->
     Body w' = Body w +:+ (msg +:+ newline)) /\
  (bodyAllowedForStatus code = false -> Body w' = Body w).
Proof.
  intros (Hw & Hbr & Hh & _) Hc w'. subst w'.
  split.
  { apply Result_returns. rewrite http_Error_panics, Hw.
    now rewrite (proj2 (checkWriteHeaderCode_spec code)) by lia. }
  unfold http_Error. cbv zeta.
  rewrite WriteHeader_final by (simpl; assumption). cbn [state_of].
  unfold Write. rewrite WriteHeader_again by reflexivity.
  cbn [state_of Code head broken Header_Set Body].
  rewrite line_not_empty, Hh, Hbr.
  destruct (bodyAllowedForStatus code); simpl.
  - repeat split; try discriminate.
    + rewrite lookup_insert_ne by discriminate. apply lookup_insert_eq.
    + apply lookup_insert_eq.
  - repeat split; try discriminate.
    + rewrite lookup_insert_ne by discriminate. apply lookup_insert_eq.
    + apply lookup_insert_eq.
Qed.


(** Before the status line is out, a code outside [100..999] makes
    [http.Error] panic after it has set its two header fields: nothing
    is sent. *)
Lemma http_Error_invalid (w : ResponseWriter) (msg : string) (code : Z) :
  wroteHeader w = false -> checkWriteHeaderCode code = false ->
  let w' := state_of (http_Error w msg code) in
  http_Error w msg code = Panic w' /\
  wroteHeader w' = false /\ Body w' = Body w /\
  sentHeader w' = sentHeader w /\ informational w' = informational w.
Proof.
  intros Hw Hc w'. subst w'. unfold http_Error. cbv zeta.
  rewrite WriteHeader_invalid by (simpl; assumption).
  now repeat split.
Qed.

(** A call on the sink made in a state: the record is untouched, and
    so are the request and the state of the application. *)
Section OnSink.

Context {AppState : Type}.

Implicit Types (st : @State AppState)
  (f : ResponseWriter -> Result ResponseWriter unit).

Lemma on_sink_state f st :
  state_of (on_sink f st) =
  {| env := {| sink := state_of (f (sink (env st))); req := req (env st);
               app := app (env st) |};
     trace := trace st |}.
Proof. unfold on_sink. now destruct (f (sink (env st))). Qed.

Lemma on_sink_panicked f st :
  panicked (on_sink f st) = panicked (f (sink (env st))).
Proof. unfold on_sink. now destruct (f (sink (env st))). Qed.

Lemma on_sink_trace f st : trace (state_of (on_sink f st)) = trace st.
Proof. now rewrite on_sink_state. Qed.

End OnSink.

(** ** The setup phase *)

Section SetupFacts.

Context {AppState : Type}.

Implicit Types (s : @HTTPServer AppState)
  (regs : list (@Registration AppState)).

Lemma register_middlewares regs : forall s,
  middlewares (router (fold_left register regs s)) =
  middlewares (router s) ++
  imap (fun i => middlewareFunc (length (middlewares (router s)) + i))
       (middleware_of regs).
Proof.
  induction regs as [|reg regs IH]; intros s; simpl.
  - now rewrite app_nil_r.
  - rewrite IH. destruct reg as [m | route c ms]; simpl.
    + rewrite <- app_assoc. f_equal. simpl. rewrite Nat.add_0_r. f_equal.
      apply imap_ext. intros i x _. simpl.
      rewrite length_app. simpl. f_equal. lia.
    + reflexivity.
Qed.

Lemma register_routes regs : forall s,
  routes (router (fold_left register regs s)) =
  routes (router s) ++
  imap (fun k => entry (length (routes (router s)) + k)) (routes_of regs).
Proof.
  induction regs as [|reg regs IH]; intros s; simpl.
  - now rewrite app_nil_r.
  - rewrite IH. destruct reg as [m | route c ms]; simpl.
    + reflexivity.
    + rewrite <- app_assoc. f_equal. simpl. rewrite Nat.add_0_r. f_equal.
      apply imap_ext. intros i x _. simpl.
      rewrite length_app. simpl. f_equal. lia.
Qed.

(** After the setup the chain holds the closures of the middleware in
    the order of the [AddMiddleware] calls, and the table the entries of
    the [AddRoute] calls. *)
Lemma configure_middlewares regs :
  middlewares (router (configure regs)) =
  imap middlewareFunc (middleware_of regs).
Proof. unfold configure. now rewrite register_middlewares. Qed.

Lemma configure_routes regs :
  routes (router (configure regs)) = imap entry (routes_of regs).
Proof. unfold configure. now rewrite register_routes. Qed.

End SetupFacts.

(** ** The record of the middleware that passed *)

Section PassedFacts.

Context {AppState : Type}.

Context (ms : list (@MiddlewareInterface AppState)) (e0 : @Env AppState).

Implicit Types (t : list (@Event AppState)) (e : @Env AppState).

Lemma passed_length n t e : passed ms e0 n t e -> length t = (2 * n)%nat.
Proof.
  induction 1 as [|n t e m e' _ IH _ _]; [reflexivity|].
  rewrite length_app, IH. simpl. lia.
Qed.

(** Only registered middleware pass. *)
Lemma passed_bound n t e : passed ms e0 n t e -> (n <= length ms)%nat.
Proof.
  destruct 1 as [|n t e m e' _ Hm _]; [lia|].
  apply lookup_lt_Some in Hm. lia.
Qed.

(** The record and the state reached are determined by the chain. *)
Lemma passed_functional n t1 e1 t2 e2 :
  passed ms e0 n t1 e1 -> passed ms e0 n t2 e2 -> t1 = t2 /\ e1 = e2.
Proof.
  intros H1. revert t2 e2.
  induction H1 as [|n t e m e' _ IH Hm Hh]; intros t2 e2 H2.
  - inversion H2. now split.
  - inversion H2 as [|n' t' e3 m' e4 Hp' Hm' Hh' Hn Ht He]. subst.
    destruct (IH _ _ Hp') as [-> ->].
    rewrite Hm in Hm'. injection Hm' as <-.
    rewrite Hh in Hh'. injection Hh' as <-. now split.
Qed.

(** Only middleware below [n] were called. *)
Lemma passed_Invoke n t e s :
  passed ms e0 n t e -> Invoke s ∈ t ->
  exists i, s = Middleware i /\ (i < n)%nat.
Proof.
  induction 1 as [|n t e m e' _ IH _ _]; intros Hin.
  - now apply elem_of_nil in Hin.
  - apply elem_of_app in Hin as [Hin | Hin].
    + destruct (IH Hin) as (i & -> & Hlt). exists i. split; [reflexivity | lia].
    + apply elem_of_cons in Hin as [Heq | Hin].
      * injection Heq as ->. exists n. split; [reflexivity | lia].
      * apply elem_of_cons in Hin as [Heq | Hin]; [discriminate|].
        now apply elem_of_nil in Hin.
Qed.

(** Every stage that returned was such a middleware and returned [nil]. *)
Lemma passed_Returned n t e s herr e1 :
  passed ms e0 n t e -> Returned s herr e1 ∈ t ->
  herr = None /\ exists i, s = Middleware i /\ (i < n)%nat.
Proof.
  induction 1 as [|n t e m e' _ IH _ _]; intros Hin.
  - now apply elem_of_nil in Hin.
  - apply elem_of_app in Hin as [Hin | Hin].
    + destruct (IH Hin) as (-> & i & -> & Hlt).
      split; [reflexivity|]. exists i. split; [reflexivity | lia].
    + apply elem_of_cons in Hin as [Heq | Hin]; [discriminate|].
      apply elem_of_cons in Hin as [Heq | Hin].
      * injection Heq as -> -> ->. split; [reflexivity|].
        exists n. split; [reflexivity | lia].
      * now apply elem_of_nil in Hin.
Qed.

(** No stage panicked. *)
Lemma passed_Panicked n t e s e1 :
  passed ms e0 n t e -> Panicked s e1 ∉ t.
Proof.
  induction 1 as [|n t e m e' _ IH _ _]; intros Hin.
  - now apply elem_of_nil in Hin.
  - apply elem_of_app in Hin as [Hin | Hin]; [now apply IH|].
    apply elem_of_cons in Hin as [Heq | Hin]; [discriminate|].
    apply elem_of_cons in Hin as [Heq | Hin]; [discriminate|].
    now apply elem_of_nil in Hin.
Qed.

(** The calls are those of middleware [0], [1], ... in this order. *)
Lemma passed_calls n t e :
  passed ms e0 n t e -> middleware_calls t = seq 0 n.
Proof.
  induction 1 as [|n t e m e' _ IH _ _]; [reflexivity|].
  unfold middleware_calls in *. rewrite omap_app, IH, seq_S. reflexivity.
Qed.

(** Whatever middleware is called at position [p], the record up to [p]
    is that of the middleware before it having passed, and the call is
    that of the middleware registered at that place, which returned
    [nil]. *)
Lemma passed_before n t e p i :
  passed ms e0 n t e -> t !! p = Some (Invoke (Middleware i)) ->
  exists ei m e',
    passed ms e0 i (take p t) ei /\ ms !! i = Some m /\
    Handle m ei = Return None e' /\
    t !! S p = Some (Returned (Middleware i) None e').
Proof.
  induction 1 as [|n t e m e' Hp IH Hm Hh] in p |- *; intros Hlook.
  - discriminate.
  - pose proof (passed_length _ _ _ Hp) as Hlen.
    destruct (decide (p < length t)%nat) as [Hlt | Hge].
    + rewrite lookup_app_l in Hlook by exact Hlt.
      destruct (IH _ Hlook) as (ei & mi & ei' & Hpi & Hmi & Hhi & Hnext).
      exists ei, mi, ei'. rewrite take_app_le by lia.
      repeat split; try assumption.
      rewrite lookup_app_l by (apply lookup_lt_Some in Hnext; exact Hnext).
      exact Hnext.
    + rewrite lookup_app_r in Hlook by lia.
      destruct (p - length t)%nat as [|[|q]] eqn:Hq; simpl in Hlook.
      * injection Hlook as <-.
        replace p with (length t) by lia.
        exists e, m, e'. rewrite take_app_length.
        repeat split; try assumption.
        rewrite lookup_app_r by lia.
        now replace (S (length t) - length t)%nat with 1%nat by lia.
      * discriminate.
      * discriminate.
Qed.

End PassedFacts.

(** ** One request through the chain *)

Section ServeFacts.

Context {AppState : Type}.

Variable matchTemplate : string -> string -> option (gmap string string).

Implicit Types (st : @State AppState) (e : @Env AppState)
  (regs : list (@Registration AppState))
  (ms : list (@MiddlewareInterface AppState)).

(** The closures numbered from [n], one step unfolded. *)
Lemma chain_imap_cons n m ms (h : @Handler AppState) :
  chain (imap (fun i => middlewareFunc (n + i)) (m :: ms)) h =
  middlewareFunc n m
    (chain (imap (fun i => middlewareFunc (S n + i)) ms) h).
Proof.
  rewrite imap_cons. cbn [chain fold_right]. rewrite Nat.add_0_r.
  f_equal. unfold chain. f_equal.
  apply imap_ext. intros i x _. simpl. f_equal. lia.
Qed.

(** Where the chain stands after its first [n] middleware passed: the
    rest of the chain is entered on the state they left. *)
Lemma chain_passed ms e0 (h : @Handler AppState) n t e :
  passed ms e0 n t e ->
  chain (imap middlewareFunc ms) h {| env := e0; trace := [] |} =
  chain (imap (fun i => middlewareFunc (n + i)) (drop n ms)) h
        {| env := e; trace := t |}.
Proof.
  induction 1 as [|n t e m e' _ IH Hm Hh]; [reflexivity|].
  rewrite IH, (drop_S _ _ _ Hm), chain_imap_cons.
  unfold middlewareFunc at 1. unfold call. cbn [env trace].
  now rewrite Hh.
Qed.

(** The rest of the chain, entered after its first [n] middleware
    passed, ends in one of the five ways of [served]. *)
Lemma chain_served ms0 k c e0 :
  forall ms n st,
  drop n ms0 = ms ->
  passed ms0 e0 n (trace st) (env st) ->
  served ms0 k c e0
    (chain (imap (fun i => middlewareFunc (n + i)) ms) (routeFunc k c) st).
Proof.
  induction ms as [|m ms IH]; intros n st Hdrop Hp.
  - assert (n = length ms0) as ->.
    { apply passed_bound in Hp. apply drop_nil_inv in Hdrop. lia. }
    simpl. unfold routeFunc, call.
    destruct (Action c (env st)) as [[herr|] e|e] eqn:Hact.
    + exact (served_failed ms0 k c e0 (trace st) (env st) herr e Hp Hact).
    + exact (served_done ms0 k c e0 (trace st) (env st) e Hp Hact).
    + exact (served_crashed ms0 k c e0 (trace st) (env st) e Hp Hact).
  - assert (Hm : ms0 !! n = Some m).
    { rewrite <- (Nat.add_0_r n), <- lookup_drop, Hdrop. reflexivity. }
    assert (Hrest : drop (S n) ms0 = ms).
    { rewrite (drop_S _ _ _ Hm) in Hdrop. now injection Hdrop. }
    rewrite chain_imap_cons. unfold middlewareFunc at 1. unfold call.
    destruct (Handle m (env st)) as [[herr|] e|e] eqn:Hh.
    + exact (served_stopped ms0 k c e0 n (trace st) (env st) m herr e
               Hp Hm Hh).
    + apply IH; [exact Hrest|]. simpl. now apply passed_next with (e := env st) (m := m).
    + exact (served_aborted ms0 k c e0 n (trace st) (env st) m e Hp Hm Hh).
Qed.

(** A match is a route of the table that accepts both the path and the
    method of the request. *)
Lemma Match_Matched (rs : list (@Route AppState)) rq rt vars :
  Match matchTemplate rs rq = Matched rt vars ->
  exists k, rs !! k = Some rt /\ Method rq ∈ methods rt /\
            matchTemplate (tpl rt) (URL_Path rq) = Some vars.
Proof.
  induction rs as [|r0 rs IH]; simpl; intros HM; [discriminate|].
  destruct (matchTemplate (tpl r0) (URL_Path rq)) as [vars0|] eqn:Ht.
  - destruct (bool_decide (Method rq ∈ methods r0)) eqn:Hm.
    + injection HM as -> ->. exists 0%nat.
      apply bool_decide_eq_true in Hm. now repeat split.
    + destruct (Match matchTemplate rs rq) as [rt1 vars1| |] eqn:HM1;
        try discriminate.
      injection HM as -> ->. destruct (IH eq_refl) as (k & Hk & Hin & Htpl).
      exists (S k). now repeat split.
  - destruct (IH HM) as (k & Hk & Hin & Htpl). exists (S k). now repeat split.
Qed.

(** Serving a request on a configured server: either a registered route
    accepts it and the request ends in one of the five ways, or no stage
    is ever called. *)
Lemma Serve_cases regs e :
  let res := Serve matchTemplate (configure regs) e in
  (exists k route c methods vars,
      routes_of regs !! k = Some (route, c, methods) /\
      Method (req e) ∈ methods /\
      matchTemplate route (URL_Path (req e)) = Some vars /\
      served (middleware_of regs) k c (withVars vars e) res) \/
  (trace (state_of res) = [] /\ panicked res = false).
Proof.
  unfold Serve, ServeHTTP. cbn [env req].
  destruct (Match matchTemplate (routes (router (configure regs))) (req e))
    as [rt vars| |] eqn:HM.
  - left. apply Match_Matched in HM as (k & Hk & Hm & Ht).
    rewrite configure_routes in Hk.
    apply list_lookup_imap_Some in Hk as ([[route c] methods] & Hx & ->).
    exists k, route, c, methods, vars. simpl in Hm, Ht.
    repeat split; try assumption.
    rewrite configure_middlewares.
    exact (chain_served (middleware_of regs) k c (withVars vars e)
             (middleware_of regs) 0
             (setVars vars {| env := e; trace := [] |}) eq_refl
             (passed_none _ _)).
  - right. rewrite on_sink_trace, on_sink_panicked, WriteHeader_panics.
    split; [reflexivity | apply andb_false_r].
  - right. rewrite on_sink_trace, on_sink_panicked, http_Error_panics.
    split; [reflexivity | apply andb_false_r].
Qed.

(** The other direction: when the request is matched to route [k] and
    the first [n] middleware pass, the dispatch is the rest of the chain
    entered on the state they left. *)
Lemma Serve_passed regs e k route c methods vars n t en :
  Match matchTemplate (routes (router (configure regs))) (req e)
    = Matched (entry k (route, c, methods)) vars ->
  passed (middleware_of regs) (withVars vars e) n t en ->
  Serve matchTemplate (configure regs) e =
  chain (imap (fun i => middlewareFunc (n + i)) (drop n (middleware_of regs)))
        (routeFunc k c) {| env := en; trace := t |}.
Proof.
  intros HM Hp. unfold Serve, ServeHTTP. cbn [env req]. rewrite HM.
  rewrite configure_middlewares.
  exact (chain_passed _ _ _ _ _ _ Hp).
Qed.

(** When all the middleware pass, the dispatch is the handler of the
    route, entered on the state they left. *)
Lemma Serve_reaches_controller regs e k route c methods vars t en :
  Match matchTemplate (routes (router (configure regs))) (req e)
    = Matched (entry k (route, c, methods)) vars ->
  passed (middleware_of regs) (withVars vars e)
         (length (middleware_of regs)) t en ->
  Serve matchTemplate (configure regs) e =
  routeFunc k c {| env := en; trace := t |}.
Proof.
  intros HM Hp. rewrite (Serve_passed _ _ _ _ _ _ _ _ _ _ HM Hp).
  now rewrite drop_all.
Qed.

(** When the first [i] middleware pass and the next one returns an Error
    Model, the dispatch is the translation of that Error Model, and the
    call of that middleware is the last entry of the record. *)
Lemma Serve_stops_at_error regs e k route c methods vars i t ei m herr e' :
  Match matchTemplate (routes (router (configure regs))) (req e)
    = Matched (entry k (route, c, methods)) vars ->
  passed (middleware_of regs) (withVars vars e) i t ei ->
  middleware_of regs !! i = Some m ->
  Handle m ei = Return (Some herr) e' ->
  Serve matchTemplate (configure regs) e =
  translate herr
    {| env := e';
       trace := t ++ [Invoke (Middleware i);
                      Returned (Middleware i) (Some herr) e'] |}.
Proof.
  intros HM Hp Hm Hh. rewrite (Serve_passed _ _ _ _ _ _ _ _ _ _ HM Hp).
  rewrite (drop_S _ _ _ Hm), chain_imap_cons.
  unfold middlewareFunc at 1. unfold call. cbn [env trace].
  now rewrite Hh.
Qed.

End ServeFacts.

(** ** How a dispatch ends *)

Section Endings.

Context {AppState : Type}.

Implicit Types (st : @State AppState) (e : @Env AppState)
  (t : list (@Event AppState)) (res : Result (@State AppState) unit).

Lemma translate_trace herr st :
  trace (state_of (translate herr st)) = trace st.
Proof.
  unfold translate. destruct (Err herr); [apply on_sink_trace | reflexivity].
Qed.

Lemma translate_nil herr st :
  Err herr = None -> translate herr st = Panic st.
Proof. intros H. unfold translate. now rewrite H. Qed.

(** The translation of an Error Model with a cause is the one call of
    [http.Error]; it panics when that call does. *)
Lemma translate_cause herr err st :
  Err herr = Some err ->
  translate herr st =
    on_sink (fun w => http_Error w (Error err) (ResponseCode herr)) st.
Proof. intros H. unfold translate. now rewrite H. Qed.

Lemma translate_state herr err st :
  Err herr = Some err ->
  let out := http_Error (sink (env st)) (Error err) (ResponseCode herr) in
  state_of (translate herr st) =
    {| env := {| sink := state_of out; req := req (env st);
                 app := app (env st) |};
       trace := trace st |} /\
  panicked (translate herr st) = panicked out.
Proof.
  intros H out. subst out. rewrite (translate_cause _ _ _ H).
  now rewrite on_sink_state, on_sink_panicked.
Qed.

(** When that call returns, so does the translation. *)
Lemma translate_returns herr err st :
  Err herr = Some err ->
  panicked (http_Error (sink (env st)) (Error err) (ResponseCode herr))
    = false ->
  translate herr st =
    Return tt
      {| env := {| sink := state_of (http_Error (sink (env st)) (Error err)
                                       (ResponseCode herr));
                   req := req (env st); app := app (env st) |};
         trace := trace st |}.
Proof.
  intros H Hout. destruct (translate_state herr err st H) as [Hst Hp].
  rewrite <- Hst. apply Result_returns. now rewrite Hp.
Qed.

(** The response after the translation of an Error Model with a cause.
    A code outside [100..999] makes [http.Error] panic when no status
    line is out, and nothing is sent then; for a code from 200 on, on a
    sink nothing was sent on and that takes a body, the status is the
    one of the Error Model and, unless the status goes without a body,
    the answer is plain text with the message as its one line. *)
Lemma translate_response herr err st :
  Err herr = Some err ->
  let res := translate herr st in
  let out := http_Error (sink (env st)) (Error err) (ResponseCode herr) in
  let w' := sink (env (state_of res)) in
  w' = state_of out /\
  panicked res = panicked out /\
  (checkWriteHeaderCode (ResponseCode herr) = true -> panicked res = false) /\
  (wroteHeader (sink (env st)) = true -> panicked res = false) /\
  (ready (sink (env st)) -> 200 <= ResponseCode herr <= 999 ->
     panicked res = false /\
     Code w' = ResponseCode herr /\
     (bodyAllowedForStatus (ResponseCode herr) = true ->
        sentHeader w' !! "Content-Type"
          = Some ["text/plain; charset=utf-8"] /\
        Body w' = Body (sink (env st)) +:+ (Error err +:+ newline))) /\
  (wroteHeader (sink (env st)) = false ->
   checkWriteHeaderCode (ResponseCode herr) = false ->
     panicked res = true /\ wroteHeader w' = false /\
     Body w' = Body (sink (env st)) /\
     sentHeader w' = sentHeader (sink (env st))).
Proof.
  intros H res out w'. subst res out w'.
  destruct (translate_state herr err st H) as [Hst Hp]. cbv zeta in Hst, Hp.
  rewrite Hst, Hp. cbn [env sink].
  split; [reflexivity|]. split; [reflexivity|].
  split; [intros Hc; now rewrite http_Error_panics, Hc, andb_false_r|].
  split; [intros Hw; now rewrite http_Error_panics, Hw|].
  split.
  - intros Hready Hc.
    destruct (http_Error_fresh _ (Error err) _ Hready Hc)
      as (Hret & Hcode & Hct & _ & _ & Hbody & _).
    split; [now rewrite Hret|]. split; [exact Hcode|].
    intros Hallowed. split; [exact Hct | exact (Hbody Hallowed)].
  - intros Hw Hc.
    destruct (http_Error_invalid _ (Error err) _ Hw Hc)
      as (Hpanic & Hw' & Hbody & Hsent & _).
    split; [now rewrite Hpanic|]. now repeat split.
Qed.

(** *** The two closures of server.go, case by case *)

(** A middleware that returns [nil]: the rest of the chain is entered on
    what the middleware left. *)
Lemma middlewareFunc_pass i (m : @MiddlewareInterface AppState) next st e' :
  Handle m (env st) = Return None e' ->
  middlewareFunc i m next st =
  next {| env := e';
          trace := trace st ++ [Invoke (Middleware i);
                                Returned (Middleware i) None e'] |}.
Proof. intros Hh. unfold middlewareFunc, call. now rewrite Hh. Qed.

(** A middleware that returns an Error Model: the rest of the chain is
    not entered, the Error Model is translated. *)
Lemma middlewareFunc_error i (m : @MiddlewareInterface AppState) next st
    herr e' :
  Handle m (env st) = Return (Some herr) e' ->
  middlewareFunc i m next st =
  translate herr
    {| env := e';
       trace := trace st ++ [Invoke (Middleware i);
                             Returned (Middleware i) (Some herr) e'] |}.
Proof. intros Hh. unfold middlewareFunc, call. now rewrite Hh. Qed.

(** Unless the middleware returns [nil], the rest of the chain has no
    part in the outcome. *)
Lemma middlewareFunc_gate i (m : @MiddlewareInterface AppState)
    next1 next2 st :
  (forall e', Handle m (env st) <> Return None e') ->
  middlewareFunc i m next1 st = middlewareFunc i m next2 st.
Proof.
  intros Hh. unfold middlewareFunc, call.
  destruct (Handle m (env st)) as [[herr|] e'|e']; try reflexivity.
  now destruct (Hh e').
Qed.

(** A controller that returns [nil]: nothing is done after it. *)
Lemma routeFunc_done k (c : @ControllerInterface AppState) st e' :
  Action c (env st) = Return None e' ->
  routeFunc k c st =
  Return tt {| env := e';
               trace := trace st ++ [Invoke (Controller k);
                                     Returned (Controller k) None e'] |}.
Proof. intros Ha. unfold routeFunc, call. now rewrite Ha. Qed.

(** A controller that returns an Error Model: it is translated by the
    rule of the middleware. *)
Lemma routeFunc_error k (c : @ControllerInterface AppState) st herr e' :
  Action c (env st) = Return (Some herr) e' ->
  routeFunc k c st =
  translate herr
    {| env := e';
       trace := trace st ++ [Invoke (Controller k);
                             Returned (Controller k) (Some herr) e'] |}.
Proof. intros Ha. unfold routeFunc, call. now rewrite Ha. Qed.

(** *** The record of a dispatch *)

(** The record of a served request ends with the call of one stage and
    its answer; before that every earlier middleware passed; and the
    outcome of the dispatch is decided by that answer alone. *)
Lemma served_last ms k c e0 res :
  served ms k c e0 res ->
  exists j t0 ej s f x,
    passed ms e0 j t0 ej /\
    trace (state_of res) = t0 ++ [Invoke s; x] /\
    (s = Controller k /\ j = length ms /\ f = Action c \/
     exists m, s = Middleware j /\ ms !! j = Some m /\ f = Handle m) /\
    answer f s ej x /\
    match x with
    | Returned _ None e' =>
        s = Controller k /\
        res = Return tt {| env := e'; trace := trace (state_of res) |}
    | Returned _ (Some herr) e' =>
        res = translate herr {| env := e'; trace := trace (state_of res) |}
    | Panicked _ e' =>
        res = Panic {| env := e'; trace := trace (state_of res) |}
    | Invoke _ => False
    end.
Proof.
  destruct 1 as [t e e' Hp Hact | t e herr e' Hp Hact | t e e' Hp Hact
                | j t e m herr e' Hp Hm Hh | j t e m e' Hp Hm Hh].
  - exists (length ms), t, e, (Controller k), (Action c),
      (Returned (Controller k) None e').
    split; [exact Hp|]. split; [reflexivity|]. split; [now left|].
    split; [now constructor|]. now split.
  - exists (length ms), t, e, (Controller k), (Action c),
      (Returned (Controller k) (Some herr) e').
    rewrite translate_trace. cbn [trace].
    split; [exact Hp|]. split; [reflexivity|]. split; [now left|].
    split; [now constructor | reflexivity].
  - exists (length ms), t, e, (Controller k), (Action c),
      (Panicked (Controller k) e').
    split; [exact Hp|]. split; [reflexivity|]. split; [now left|].
    split; [now constructor | reflexivity].
  - exists j, t, e, (Middleware j), (Handle m),
      (Returned (Middleware j) (Some herr) e').
    rewrite translate_trace. cbn [trace].
    split; [exact Hp|]. split; [reflexivity|].
    split; [right; now exists m|].
    split; [now constructor | reflexivity].
  - exists j, t, e, (Middleware j), (Handle m),
      (Panicked (Middleware j) e').
    split; [exact Hp|]. split; [reflexivity|].
    split; [right; now exists m|].
    split; [now constructor | reflexivity].
Qed.

(** Where an event of [t0 ++ [a; b]] sits. *)
Lemma elem_of_ending {A : Type} (t0 : list A) (a b x : A) :
  x ∈ t0 ++ [a; b] -> x ∈ t0 \/ x = a \/ x = b.
Proof.
  intros Hin. apply elem_of_app in Hin as [Hin | Hin]; [now left|].
  apply elem_of_cons in Hin as [-> | Hin]; [now right; left|].
  apply elem_of_cons in Hin as [-> | Hin]; [now right; right|].
  now apply elem_of_nil in Hin.
Qed.

Lemma lookup_ending {A : Type} (t0 : list A) (a b x : A) (p : nat) :
  (t0 ++ [a; b]) !! p = Some x ->
  (p < length t0)%nat /\ t0 !! p = Some x \/
  p = length t0 /\ x = a \/
  p = S (length t0) /\ x = b.
Proof.
  intros Hlook. destruct (decide (p < length t0)%nat) as [Hlt | Hge].
  - left. rewrite lookup_app_l in Hlook by exact Hlt. now split.
  - right. rewrite lookup_app_r in Hlook by lia.
    destruct (p - length t0)%nat as [|[|q]] eqn:Hq; simpl in Hlook.
    + left. split; [lia | congruence].
    + right. split; [lia | congruence].
    + discriminate.
Qed.

(** The event after a given one in a record split around it. *)
Lemma next_of_split {A : Type} (pre post : list A) (a x : A) :
  (pre ++ a :: post) !! S (length pre) = Some x ->
  exists post', post = x :: post'.
Proof.
  rewrite lookup_app_r by lia.
  replace (S (length pre) - length pre)%nat with 1%nat by lia.
  destruct post as [|y post']; [discriminate|].
  intros Heq. injection Heq as ->. now exists post'.
Qed.

(** An answer is never the record of a call. *)
Lemma answer_not_Invoke (f : @Env AppState -> _) s e s' :
  ~ answer f s e (Invoke s').
Proof. inversion 1. Qed.

End Endings.

(** An event of a record [t0 ++ [a; b]] is in [t0], is [a] or is [b]. *)
Ltac in_ending H := apply elem_of_ending in H as [H | [H | H]].

(** A record that holds an event is not empty. *)
Ltac holds_event H :=
  let Hnil := fresh "Hnil" in
  intros Hnil; rewrite Hnil in H; now apply elem_of_nil in H.

(** ** The dispatcher *)

Section DispatchClaims.

Context {AppState : Type}.

Variable matchTemplate : string -> string -> option (gmap string string).

Implicit Types (e : @Env AppState) (regs : list (@Registration AppState)).

(** The last call of a dispatch that reached a stage: the stage is a
    registered one, it was called on what the middleware before it left,
    and the outcome follows from its answer. *)
Lemma Serve_last regs e :
  let res := Serve matchTemplate (configure regs) e in
  trace (state_of res) <> [] ->
  exists k route c methods vars j t0 ej s f x,
    routes_of regs !! k = Some (route, c, methods) /\
    Method (req e) ∈ methods /\
    passed (middleware_of regs) (withVars vars e) j t0 ej /\
    trace (state_of res) = t0 ++ [Invoke s; x] /\
    (s = Controller k /\ j = length (middleware_of regs) /\ f = Action c \/
     exists m, s = Middleware j /\ middleware_of regs !! j = Some m /\
               f = Handle m) /\
    answer f s ej x /\
    match x with
    | Returned _ None e' =>
        s = Controller k /\
        res = Return tt {| env := e'; trace := trace (state_of res) |}
    | Returned _ (Some herr) e' =>
        res = translate herr {| env := e'; trace := trace (state_of res) |}
    | Panicked _ e' =>
        res = Panic {| env := e'; trace := trace (state_of res) |}
    | Invoke _ => False
    end.
Proof.
  intros res Hne. subst res.
  destruct (Serve_cases matchTemplate regs e)
    as [(k & route & c & methods & vars & Hk & Hm & _ & Hs) | [Hnil _]];
    [|contradiction].
  apply served_last in Hs
    as (j & t0 & ej & s & f & x & Hp & Ht & Hstage & Hans & Hout).
  exists k, route, c, methods, vars, j, t0, ej, s, f, x.
  now repeat split.
Qed.

(** C3.  The function [AddRoute] registers does nothing after a
    controller that returns [nil].  In the dispatch of a request, when
    every registered middleware returns [nil] and the controller of the
    matched route returns [nil], the dispatch returns the state the
    controller left, response sink included: the dispatcher writes
    nothing of its own.  Read from the record: whenever a controller
    returned [nil], every middleware had returned [nil] before it and
    the outcome is the state the controller left. *)
Theorem controller_success_adds_nothing regs e :
  (forall k (c : @ControllerInterface AppState) st e',
      Action c (env st) = Return None e' ->
      routeFunc k c st =
      Return tt {| env := e';
                   trace := trace st ++ [Invoke (Controller k);
                                         Returned (Controller k) None e'] |}) /\
  let res := Serve matchTemplate (configure regs) e in
  (forall k route c methods vars t en e',
      Match matchTemplate (routes (router (configure regs))) (req e)
        = Matched (entry k (route, c, methods)) vars ->
      passed (middleware_of regs) (withVars vars e)
             (length (middleware_of regs)) t en ->
      Action c en = Return None e' ->
      res = Return tt {| env := e';
                         trace := t ++ [Invoke (Controller k);
                                        Returned (Controller k) None e'] |}) /\
  forall k e',
    Returned (Controller k) None e' ∈ trace (state_of res) ->
    res = Return tt {| env := e'; trace := trace (state_of res) |} /\
    sink (env (state_of res)) = sink e' /\
    exists route c methods vars t0 en,
      routes_of regs !! k = Some (route, c, methods) /\
      passed (middleware_of regs) (withVars vars e)
             (length (middleware_of regs)) t0 en /\
      Action c en = Return None e' /\
      trace (state_of res) =
        t0 ++ [Invoke (Controller k); Returned (Controller k) None e'].
Proof.
  split; [intros k c st e' Ha; now apply routeFunc_done|].
  intros res. split.
  { intros k route c methods vars t en e' HM Hp Ha. subst res.
    rewrite (Serve_reaches_controller _ _ _ _ _ _ _ _ _ _ HM Hp).
    now apply routeFunc_done. }
  intros k e' Hin.
  assert (Hne : trace (state_of res) <> [])
    by holds_event Hin.
  destruct (Serve_last regs e Hne)
    as (k0 & route & c & methods & vars & j & t0 & ej & s & f & x
        & Hk & _ & Hp & Ht & Hstage & Hans & Hout).
  fold res in Ht, Hout. rewrite Ht in Hin.
  in_ending Hin.
  - apply (passed_Returned _ _ _ _ _ _ _ _ Hp) in Hin as (_ & i & Hi & _).
    discriminate.
  - discriminate.
  - subst x. destruct Hout as [-> Hres].
    inversion Hans as [herr e1 Hf [Hk1 Hherr He1]|]. subst k0 herr e1.
    destruct Hstage as [(_ & -> & ->) | (m & Hs' & _)]; [|discriminate].
    split; [exact Hres|]. split; [now rewrite Hres|].
    exists route, c, methods, vars, t0, ej. now repeat split.
Qed.

(** C5.  A request whose method is not in the method set of a registered
    route never has the controller of that route called, whatever else
    is registered. *)
Theorem method_mismatch_never_invokes regs e k route c methods :
  routes_of regs !! k = Some (route, c, methods) ->
  Method (req e) ∉ methods ->
  Invoke (Controller k)
    ∉ trace (state_of (Serve matchTemplate (configure regs) e)).
Proof.
  intros Hk Hnot Hin.
  assert (Hne : trace (state_of (Serve matchTemplate (configure regs) e))
                <> [])
    by holds_event Hin.
  destruct (Serve_last regs e Hne)
    as (k0 & route0 & c0 & methods0 & vars & j & t0 & ej & s & f & x
        & Hk0 & Hm & Hp & Ht & Hstage & Hans & _).
  rewrite Ht in Hin.
  in_ending Hin.
  - apply (passed_Invoke _ _ _ _ _ _ Hp) in Hin as (i & Hi & _).
    discriminate.
  - injection Hin as <-.
    destruct Hstage as [(Heq & _) | (m & Heq & _)]; [|discriminate].
    injection Heq as ->. rewrite Hk in Hk0. injection Hk0 as _ _ <-.
    contradiction.
  - subst x. now apply answer_not_Invoke in Hans.
Qed.

(** C4.  The closure [AddMiddleware] registers enters the rest of the
    chain after its middleware returned [nil], and only then.  So, in
    the record of any request, whenever middleware [i] is called,
    the record so far is exactly that of the first [i] registered
    middleware, each called in registration order on what the one before
    left and each having returned [nil], and the call is that of the
    [Handle] of the middleware registered at place [i]; whenever a
    controller is called, it is the controller of the matched route and
    the record so far is that of all the registered middleware having
    returned [nil].  The middleware called are therefore
    [0, 1, ..., j-1] for some [j], in this order. *)
Theorem middleware_order_then_controller regs e :
  (forall i (m : @MiddlewareInterface AppState) next st e',
      Handle m (env st) = Return None e' ->
      middlewareFunc i m next st =
      next {| env := e';
              trace := trace st ++ [Invoke (Middleware i);
                                    Returned (Middleware i) None e'] |}) /\
  (forall i (m : @MiddlewareInterface AppState) next1 next2 st,
      (forall e', Handle m (env st) <> Return None e') ->
      middlewareFunc i m next1 st = middlewareFunc i m next2 st) /\
  let t := trace (state_of (Serve matchTemplate (configure regs) e)) in
  (forall pre i post,
      t = pre ++ Invoke (Middleware i) :: post ->
      exists vars ei m x post',
        passed (middleware_of regs) (withVars vars e) i pre ei /\
        middleware_of regs !! i = Some m /\
        post = x :: post' /\
        answer (Handle m) (Middleware i) ei x) /\
  (forall pre k post,
      t = pre ++ Invoke (Controller k) :: post ->
      exists route c methods vars en x,
        routes_of regs !! k = Some (route, c, methods) /\
        passed (middleware_of regs) (withVars vars e)
               (length (middleware_of regs)) pre en /\
        post = [x] /\
        answer (Action c) (Controller k) en x) /\
  (exists j, (j <= length (middleware_of regs))%nat /\
             middleware_calls t = seq 0 j).
Proof.
  split; [intros i m next st e' Hh; now apply middlewareFunc_pass|].
  split; [intros i m next1 next2 st Hh; now apply middlewareFunc_gate|].
  intros t.
  destruct (decide (t = [])) as [Hnil | Hne].
  { rewrite Hnil. split; [|split].
    - intros pre i post Heq. now destruct pre.
    - intros pre k post Heq. now destruct pre.
    - exists 0%nat. split; [lia | reflexivity]. }
  destruct (Serve_last regs e Hne)
    as (k0 & route & c & methods & vars & j & t0 & ej & s & f & x
        & Hk & _ & Hp & Ht & Hstage & Hans & _).
  fold t in Ht. rewrite Ht.
  assert (Hx : forall s', x <> Invoke s')
    by (intros s' ->; now apply answer_not_Invoke in Hans).
  split; [|split].
  - intros pre i post Heq.
    assert (Hlook : (t0 ++ [Invoke s; x]) !! length pre
                    = Some (Invoke (Middleware i)))
      by (rewrite Heq; now apply list_lookup_middle).
    assert (Htake : take (length pre) (t0 ++ [Invoke s; x]) = pre)
      by (rewrite Heq; apply take_app_length).
    apply lookup_ending in Hlook as [[Hlt Hl] | [[Hlen Hev] | [_ Hev]]].
    + destruct (passed_before _ _ _ _ _ _ _ Hp Hl)
        as (ei & m & ei' & Hpi & Hmi & Hhi & Hnext).
      assert (Hnext' : (pre ++ Invoke (Middleware i) :: post)
                       !! S (length pre)
                       = Some (Returned (Middleware i) None ei')).
      { rewrite <- Heq. rewrite lookup_app_l
          by (apply lookup_lt_Some in Hnext; exact Hnext). exact Hnext. }
      apply next_of_split in Hnext' as (post' & ->).
      exists vars, ei, m, (Returned (Middleware i) None ei'), post'.
      rewrite <- Htake, take_app_le by lia.
      split; [exact Hpi|]. split; [exact Hmi|]. split; [reflexivity|].
      now constructor.
    + injection Hev as <-.
      destruct Hstage as [(Heq' & _) | (m & Heq' & Hm & ->)]; [discriminate|].
      injection Heq' as ->.
      assert (Hnext' : (pre ++ Invoke (Middleware j) :: post)
                       !! S (length pre) = Some x).
      { rewrite <- Heq, Hlen. rewrite lookup_app_r by lia.
        now replace (S (length t0) - length t0)%nat with 1%nat by lia. }
      apply next_of_split in Hnext' as (post' & ->).
      exists vars, ej, m, x, post'.
      rewrite <- Htake, Hlen, take_app_length. now repeat split.
    + now apply eq_sym, Hx in Hev.
  - intros pre k post Heq.
    assert (Hlook : (t0 ++ [Invoke s; x]) !! length pre
                    = Some (Invoke (Controller k)))
      by (rewrite Heq; now apply list_lookup_middle).
    assert (Htake : take (length pre) (t0 ++ [Invoke s; x]) = pre)
      by (rewrite Heq; apply take_app_length).
    apply lookup_ending in Hlook as [[Hlt Hl] | [[Hlen Hev] | [_ Hev]]].
    + apply list_elem_of_lookup_2 in Hl.
      apply (passed_Invoke _ _ _ _ _ _ Hp) in Hl as (i & Hi & _).
      discriminate.
    + injection Hev as <-.
      destruct Hstage as [(Heq' & -> & ->) | (m & Heq' & _)]; [|discriminate].
      injection Heq' as ->.
      assert (Hpre : pre = t0)
        by (rewrite <- Htake, Hlen; apply take_app_length).
      subst pre. apply app_inv_head in Heq. injection Heq as <-.
      exists route, c, methods, vars, ej, x. now repeat split.
    + now apply eq_sym, Hx in Hev.
  - unfold middleware_calls. rewrite omap_app.
    fold (middleware_calls t0). rewrite (passed_calls _ _ _ _ _ Hp).
    assert (Hlast : omap (fun ev : @Event AppState =>
              match ev with
              | Invoke (Middleware i) => Some i
              | _ => None
              end) [x] = []).
    { destruct x as [s'| |]; [now destruct (Hx s')| |]; reflexivity. }
    destruct Hstage as [(-> & -> & _) | (m & -> & Hm & _)].
    + exists (length (middleware_of regs)). split; [lia|].
      change [Invoke (Controller k0); x]
        with ([Invoke (Controller k0)] ++ [x]).
      rewrite omap_app, Hlast. simpl. now rewrite app_nil_r.
    + exists (S j). split; [apply lookup_lt_Some in Hm; lia|].
      change [Invoke (Middleware j); x]
        with ([Invoke (Middleware j)] ++ [x]).
      rewrite omap_app, Hlast, seq_S. reflexivity.
Qed.

(** Whichever stage returned an Error Model, it was the last stage called
    and the dispatch ended with the translation of that Error Model. *)
Lemma error_ends_dispatch regs e s herr e' :
  let res := Serve matchTemplate (configure regs) e in
  Returned s (Some herr) e' ∈ trace (state_of res) ->
  res = translate herr {| env := e'; trace := trace (state_of res) |} /\
  exists k route c methods vars j t0 ej f,
    routes_of regs !! k = Some (route, c, methods) /\
    passed (middleware_of regs) (withVars vars e) j t0 ej /\
    trace (state_of res) = t0 ++ [Invoke s; Returned s (Some herr) e'] /\
    (s = Controller k /\ j = length (middleware_of regs) /\ f = Action c \/
     exists m, s = Middleware j /\ middleware_of regs !! j = Some m /\
               f = Handle m) /\
    f ej = Return (Some herr) e'.
Proof.
  intros res Hin.
  assert (Hne : trace (state_of res) <> [])
    by holds_event Hin.
  destruct (Serve_last regs e Hne)
    as (k & route & c & methods & vars & j & t0 & ej & s0 & f & x
        & Hk & _ & Hp & Ht & Hstage & Hans & Hout).
  fold res in Ht, Hout. rewrite Ht in Hin.
  in_ending Hin.
  - apply (passed_Returned _ _ _ _ _ _ _ _ Hp) in Hin as (Hnone & _).
    discriminate.
  - discriminate.
  - subst x. cbn in Hout. split; [exact Hout|].
    inversion Hans as [herr1 e1 Hf [Hs Hherr He1]|]. subst s0 herr1 e1.
    exists k, route, c, methods, vars, j, t0, ej, f. now repeat split.
Qed.

(** C1, as amended.  The closure [AddMiddleware] registers does not
    enter the rest of the chain when its middleware returns an Error
    Model.  So, when the middleware before it pass and middleware [i]
    returns an Error Model, the record ends with that call: no later
    middleware and no controller is called, and the dispatch ends with
    the translation of that Error Model on the state the middleware left.
    When the Error Model has a cause, the translation is the one call
    [http.Error(w, cause message, ResponseCode)] on the sink as the
    middleware left it.  That call panics when [ResponseCode] is outside
    [100..999] and no status line was sent before; nothing is sent then.
    When [ResponseCode] is from 200 on and the sink is one nothing was
    sent on and that takes a body, the response has status
    [ResponseCode] and, unless the status goes without a body (204,
    304), it is [text/plain] and the cause message is appended to the
    body as one line. *)
Theorem middleware_error_short_circuits regs e :
  (forall i (m : @MiddlewareInterface AppState) next st herr e',
      Handle m (env st) = Return (Some herr) e' ->
      middlewareFunc i m next st =
      translate herr
        {| env := e';
           trace := trace st ++ [Invoke (Middleware i);
                                 Returned (Middleware i) (Some herr) e'] |}) /\
  let res := Serve matchTemplate (configure regs) e in
  let t := trace (state_of res) in
  (forall k route c methods vars i t0 ei m herr e',
      Match matchTemplate (routes (router (configure regs))) (req e)
        = Matched (entry k (route, c, methods)) vars ->
      passed (middleware_of regs) (withVars vars e) i t0 ei ->
      middleware_of regs !! i = Some m ->
      Handle m ei = Return (Some herr) e' ->
      res = translate herr
              {| env := e';
                 trace := t0 ++ [Invoke (Middleware i);
                                 Returned (Middleware i) (Some herr) e'] |}) /\
  forall i herr e',
  Returned (Middleware i) (Some herr) e' ∈ t ->
  (forall j, (i < j)%nat -> Invoke (Middleware j) ∉ t) /\
  (forall k, Invoke (Controller k) ∉ t) /\
  (exists vars t0 ei m,
      passed (middleware_of regs) (withVars vars e) i t0 ei /\
      middleware_of regs !! i = Some m /\
      Handle m ei = Return (Some herr) e' /\
      t = t0 ++ [Invoke (Middleware i);
                 Returned (Middleware i) (Some herr) e']) /\
  res = translate herr {| env := e'; trace := t |} /\
  forall err, Err herr = Some err ->
    let out := http_Error (sink e') (Error err) (ResponseCode herr) in
    let w' := sink (env (state_of res)) in
    w' = state_of out /\
    panicked res = panicked out /\
    (checkWriteHeaderCode (ResponseCode herr) = true ->
       panicked res = false) /\
    (wroteHeader (sink e') = true -> panicked res = false) /\
    (ready (sink e') -> 200 <= ResponseCode herr <= 999 ->
       panicked res = false /\
       Code w' = ResponseCode herr /\
       (bodyAllowedForStatus (ResponseCode herr) = true ->
          sentHeader w' !! "Content-Type"
            = Some ["text/plain; charset=utf-8"] /\
          Body w' = Body (sink e') +:+ (Error err +:+ newline))) /\
    (wroteHeader (sink e') = false ->
     checkWriteHeaderCode (ResponseCode herr) = false ->
       panicked res = true /\ wroteHeader w' = false /\
       Body w' = Body (sink e') /\ sentHeader w' = sentHeader (sink e')).
Proof.
  split; [intros i m next st herr e' Hh; now apply middlewareFunc_error|].
  intros res t. split.
  { intros k route c methods vars i t0 ei m herr e' HM Hp Hm Hh. subst res.
    exact (Serve_stops_at_error _ _ _ _ _ _ _ _ _ _ _ _ _ _ HM Hp Hm Hh). }
  intros i herr e' Hin. subst t.
  destruct (error_ends_dispatch regs e _ _ _ Hin)
    as (Hres & k & route & c & methods & vars & j & t0 & ej & f
        & _ & Hp & Ht & Hstage & Hf).
  fold res in Hres, Ht |- *.
  destruct Hstage as [(Hs & _) | (m & Hs & Hm & ->)]; [discriminate|].
  injection Hs as <-.
  split; [|split; [|split; [|split]]].
  - intros j Hlt Hj. rewrite Ht in Hj.
    in_ending Hj; [| |discriminate].
    + apply (passed_Invoke _ _ _ _ _ _ Hp) in Hj as (i' & Hi' & Hlt').
      injection Hi' as ->. lia.
    + injection Hj as ->. lia.
  - intros k' Hk'. rewrite Ht in Hk'.
    apply elem_of_ending in Hk' as [Hk' | [Hk' | Hk']]; [|discriminate..].
    apply (passed_Invoke _ _ _ _ _ _ Hp) in Hk' as (i' & Hi' & _).
    discriminate.
  - exists vars, t0, ej, m. now repeat split.
  - exact Hres.
  - intros err Herr.
    pose proof (translate_response herr err
                  {| env := e'; trace := trace (state_of res) |} Herr)
      as Hresp.
    cbv zeta in Hresp. cbn [env sink] in Hresp.
    rewrite <- Hres in Hresp. exact Hresp.
Qed.

(** C2, as amended.  The two closures of the dispatcher translate an
    Error Model by one and the same rule, [translate]; whichever stage of
    a request returned the Error Model, the dispatch ends with that
    translation on the state the stage left.  When the Error Model has a
    cause this is the call [http.Error(w, cause message, ResponseCode)],
    which panics when [ResponseCode] is outside [100..999] and no status
    line was sent before, nothing being sent then.  When [ResponseCode]
    is from 200 on and the sink is one nothing was sent on and that
    takes a body, the status written is [ResponseCode] and, unless the
    status goes without a body (204, 304), the answer is [text/plain]
    and the body gets the cause message as one line; in particular, when
    the controller fails on a sink nothing was written to, the response
    is that of [http.Error] on an empty sink. *)
Theorem error_translation_uniform regs e :
  (forall i k (m : @MiddlewareInterface AppState)
          (c : @ControllerInterface AppState) next st herr e',
      (Handle m (env st) = Return (Some herr) e' ->
       middlewareFunc i m next st =
       translate herr
         {| env := e';
            trace := trace st ++ [Invoke (Middleware i);
                                  Returned (Middleware i) (Some herr) e'] |}) /\
      (Action c (env st) = Return (Some herr) e' ->
       routeFunc k c st =
       translate herr
         {| env := e';
            trace := trace st ++ [Invoke (Controller k);
                                  Returned (Controller k) (Some herr) e'] |})) /\
  let res := Serve matchTemplate (configure regs) e in
  forall s herr e',
    Returned s (Some herr) e' ∈ trace (state_of res) ->
    res = translate herr {| env := e'; trace := trace (state_of res) |} /\
    forall err, Err herr = Some err ->
      let out := http_Error (sink e') (Error err) (ResponseCode herr) in
      let w' := sink (env (state_of res)) in
      (w' = state_of out /\
       panicked res = panicked out /\
       (checkWriteHeaderCode (ResponseCode herr) = true ->
          panicked res = false) /\
       (wroteHeader (sink e') = true -> panicked res = false) /\
       (ready (sink e') -> 200 <= ResponseCode herr <= 999 ->
          panicked res = false /\
          Code w' = ResponseCode herr /\
          (bodyAllowedForStatus (ResponseCode herr) = true ->
             sentHeader w' !! "Content-Type"
               = Some ["text/plain; charset=utf-8"] /\
             Body w' = Body (sink e') +:+ (Error err +:+ newline))) /\
       (wroteHeader (sink e') = false ->
        checkWriteHeaderCode (ResponseCode herr) = false ->
          panicked res = true /\ wroteHeader w' = false /\
          Body w' = Body (sink e') /\
          sentHeader w' = sentHeader (sink e'))) /\
      (sink e' = NewResponseWriter ->
         w' = state_of (http_Error NewResponseWriter (Error err)
                          (ResponseCode herr))).
Proof.
  split.
  - intros i k m c next st herr e'. split; intros Hf.
    + now apply middlewareFunc_error.
    + now apply routeFunc_error.
  - intros res s herr e' Hin.
    destruct (error_ends_dispatch regs e _ _ _ Hin) as (Hres & _).
    fold res in Hres. split; [exact Hres|].
    intros err Herr.
    pose proof (translate_response herr err
                  {| env := e'; trace := trace (state_of res) |} Herr)
      as Hresp.
    cbv zeta in Hresp. cbn [env sink] in Hresp.
    rewrite <- Hres in Hresp. cbv zeta.
    split; [exact Hresp|].
    intros Hnew. rewrite <- Hnew. exact (proj1 Hresp).
Qed.

End DispatchClaims.

(** ** The binding and encoding helpers *)

Section ControllerClaims.

Context {Schema Decoder : Type}.

Variable NewDecoder : Decoder.
Variable Decoder_Decode :
  Decoder -> Schema -> gmap string (list string) -> Schema * option error.
Variable URL_Query : string -> gmap string (list string).
Variable ParseForm : Request -> Request * option error.
Variable json_Decode : string -> Schema -> Schema * string * option error.
Variable json_Marshal : Schema -> string * option error.
Variable valid_Valid : Schema -> bool * option error.

Local Abbreviation decoderOf c := (getSchemaDecoder NewDecoder c).1.
Local Abbreviation scanQuery :=
  (ScanQuery NewDecoder Decoder_Decode URL_Query).
Local Abbreviation scanVars := (ScanVars NewDecoder Decoder_Decode).
Local Abbreviation scanForm :=
  (ScanForm NewDecoder Decoder_Decode ParseForm).
Local Abbreviation scanJSONBody := (ScanJSONBody json_Decode valid_Valid).
Local Abbreviation writeJSONResponse := (WriteJSONResponse json_Marshal).

Implicit Types (c : @AbstractController Decoder) (r : Request)
  (schema : Schema) (w : ResponseWriter).

Lemma ScanQuery_result c r schema :
  (scanQuery c r schema).2 =
  bad_request <$>
    (Decoder_Decode (decoderOf c) schema (URL_Query (URL_RawQuery r))).2.
Proof.
  unfold ScanQuery.
  destruct (getSchemaDecoder NewDecoder c) as [d c1]. simpl.
  destruct (Decoder_Decode d schema _) as [schema1 [err|]]; reflexivity.
Qed.

Lemma ScanVars_result c r schema :
  (scanVars c r schema).2 =
  bad_request <$>
    (Decoder_Decode (decoderOf c) schema ((fun v => [v]) <$> Vars r)).2.
Proof.
  unfold ScanVars.
  destruct (getSchemaDecoder NewDecoder c) as [d c1]. simpl.
  destruct (Decoder_Decode d schema _) as [schema1 [err|]]; reflexivity.
Qed.

Lemma ScanForm_result c r schema :
  (scanForm c r schema).2 =
  bad_request <$>
    match (ParseForm r).2 with
    | Some err => Some err
    | None =>
        (Decoder_Decode (decoderOf c) schema (PostForm (ParseForm r).1)).2
    end.
Proof.
  unfold ScanForm. destruct (ParseForm r) as [r1 [err|]]; [reflexivity|].
  destruct (getSchemaDecoder NewDecoder c) as [d c1]. simpl.
  destruct (Decoder_Decode d schema _) as [schema1 [err|]]; reflexivity.
Qed.

Lemma ScanJSONBody_result r schema :
  (scanJSONBody r schema).2 =
  bad_request <$>
    match (json_Decode (ReqBody r) schema).2 with
    | Some err => Some err
    | None =>
        let report := valid_Valid (json_Decode (ReqBody r) schema).1.1 in
        match report.2 with
        | Some err => Some err
        | None => if report.1 then None
                  else Some (errors_New "Schema validation error")
        end
    end.
Proof.
  unfold ScanJSONBody.
  destruct (json_Decode (ReqBody r) schema) as [[schema1 rest] [err|]];
    [reflexivity|]. simpl.
  destruct (valid_Valid schema1) as [[|] [err|]]; reflexivity.
Qed.


(** [WriteJSONResponse] on a record that cannot be encoded. *)
Lemma WriteJSONResponse_failed w schema responseCode b err :
  json_Marshal schema = (b, Some err) ->
  writeJSONResponse w schema responseCode =
    Return (Some {| ResponseCode := 500; Err := Some err |}) w.
Proof. intros Hb. unfold WriteJSONResponse. now rewrite Hb. Qed.

(** [WriteJSONResponse] on a record that encodes to [b]: the calls it
    makes on the sink. *)
Lemma WriteJSONResponse_encoded w schema responseCode b :
  json_Marshal schema = (b, None) ->
  writeJSONResponse w schema responseCode =
    match WriteHeader
            match responseCode with Some given => given | None => 200 end
            (Header_Set "Content-Type" "application/json" w) with
    | Panic w2 => Panic w2
    | Return _ w2 => Return None (Write b w2).1
    end.
Proof.
  intros Hb. unfold WriteJSONResponse. rewrite Hb.
  destruct (WriteHeader _ _) as [[] w2|w2]; [|reflexivity].
  now destruct (Write b w2) as [w3 answer].
Qed.

(** It panics exactly when its [WriteHeader] does. *)
Lemma WriteJSONResponse_panics w schema responseCode b :
  json_Marshal schema = (b, None) ->
  panicked (writeJSONResponse w schema responseCode) =
  negb (wroteHeader w) &&
  negb (checkWriteHeaderCode
          match responseCode with Some given => given | None => 200 end).
Proof.
  intros Hb. rewrite (WriteJSONResponse_encoded _ _ _ _ Hb).
  change (wroteHeader w)
    with (wroteHeader (Header_Set "Content-Type" "application/json" w)).
  rewrite <- WriteHeader_panics. now destruct (WriteHeader _ _).
Qed.

(** Before the status line is out, a status outside [100..999] makes it
    panic with nothing sent. *)
Lemma WriteJSONResponse_invalid w schema responseCode b :
  json_Marshal schema = (b, None) ->
  wroteHeader w = false ->
  checkWriteHeaderCode
    match responseCode with Some given => given | None => 200 end = false ->
  writeJSONResponse w schema responseCode =
    Panic (Header_Set "Content-Type" "application/json" w).
Proof.
  intros Hb Hw Hc. rewrite (WriteJSONResponse_encoded _ _ _ _ Hb).
  now rewrite WriteHeader_invalid.
Qed.

(** The answer on a sink nothing was sent on, for a status from 200
    on. *)
Lemma WriteJSONResponse_fresh w schema responseCode b :
  json_Marshal schema = (b, None) ->
  let code := match responseCode with Some given => given | None => 200 end in
  ready w -> 200 <= code <= 999 ->
  let w' := state_of (writeJSONResponse w schema responseCode) in
  writeJSONResponse w schema responseCode = Return None w' /\
  wroteHeader w' = true /\ broken w' = false /\ head w' = false /\
  Code w' = code /\
  Header w' = <["Content-Type" := ["application/json"]]> (Header w) /\
  sentHeader w' = Header w' /\
  (bodyAllowedForStatus code = true -> Body w' = Body w +:+ b) /\
  (bodyAllowedForStatus code = false -> Body w' = Body w).
Proof.
  intros Hb code (Hw & Hbr & Hh & Hlen) Hc w'. subst w'.
  rewrite (WriteJSONResponse_encoded _ _ _ _ Hb). fold code.
  rewrite WriteHeader_final by (simpl; assumption). cbn [state_of].
  destruct (bodyAllowedForStatus code) eqn:Hallowed.
  - rewrite Write_taking.
    + simpl. repeat split; try assumption; discriminate.
    + repeat split; simpl; try assumption.
      now rewrite lookup_insert_ne by discriminate.
  - rewrite Write_refused by (simpl; first [reflexivity | assumption]).
    simpl. repeat split; try assumption; discriminate.
Qed.

(** The answer on a sink whose status line is out. *)
Lemma WriteJSONResponse_committed w schema responseCode b :
  json_Marshal schema = (b, None) ->
  wroteHeader w = true ->
  let w' := state_of (writeJSONResponse w schema responseCode) in
  writeJSONResponse w schema responseCode = Return None w' /\
  wroteHeader w' = true /\ Code w' = Code w /\
  sentHeader w' = sentHeader w /\
  (taking w ->
     Body w' = Body w +:+ b /\ broken w' = false /\ head w' = false).
Proof.
  intros Hb Hw w'. subst w'.
  rewrite (WriteJSONResponse_encoded _ _ _ _ Hb).
  rewrite WriteHeader_again by (simpl; assumption). cbn [state_of].
  destruct (Write_status b (Header_Set "Content-Type" "application/json" w)
              Hw) as (Hw' & Hcode & Hsent).
  split; [reflexivity|]. split; [exact Hw'|]. split; [exact Hcode|].
  split; [exact Hsent|].
  intros (_ & Hbr & Hh & Hallowed & Hlen).
  rewrite Write_taking by (repeat split; assumption).
  now repeat split.
Qed.

(** C7, as amended.  When the record encodes to [b], [WriteJSONResponse]
    sets [Content-Type: application/json], calls [WriteHeader] with the
    status ([200] when none is given, the given one otherwise) and then
    [Write] with [b], in this order.  On a sink nothing was sent on and
    that takes a body: without a given status the response has status
    200, the JSON content type and the body [b]; with a given status
    from 200 on it has that status, and the JSON content type and the
    body [b] unless the status goes without a body (204, 304).  With a
    given status outside [100..999] it panics in [WriteHeader], nothing
    being sent; and on a sink whose status line is out, that status
    stays. *)
Theorem WriteJSONResponse_writes_json w schema responseCode b :
  json_Marshal schema = (b, None) ->
  let code := match responseCode with Some given => given | None => 200 end in
  let res := writeJSONResponse w schema responseCode in
  let w' := state_of res in
  (responseCode = None -> code = 200) /\
  (forall given, responseCode = Some given -> code = given) /\
  res = match WriteHeader code
                (Header_Set "Content-Type" "application/json" w) with
        | Panic w2 => Panic w2
        | Return _ w2 => Return None (Write b w2).1
        end /\
  (ready w -> responseCode = None ->
     res = Return None w' /\ Code w' = 200 /\
     sentHeader w' !! "Content-Type" = Some ["application/json"] /\
     Body w' = Body w +:+ b) /\
  (ready w -> 200 <= code <= 999 ->
     res = Return None w' /\ Code w' = code /\
     (bodyAllowedForStatus code = true ->
        sentHeader w' !! "Content-Type" = Some ["application/json"] /\
        Body w' = Body w +:+ b) /\
     (bodyAllowedForStatus code = false -> Body w' = Body w)) /\
  (wroteHeader w = false -> checkWriteHeaderCode code = false ->
     res = Panic w' /\ wroteHeader w' = false /\ Body w' = Body w /\
     sentHeader w' = sentHeader w) /\
  (wroteHeader w = true ->
     res = Return None w' /\ Code w' = Code w /\
     sentHeader w' = sentHeader w).
Proof.
  intros Hb code res w'. subst w' res.
  split; [now intros ->|]. split; [now intros given ->|].
  split; [exact (WriteJSONResponse_encoded _ _ _ _ Hb)|].
  assert (Hfresh : ready w -> 200 <= code <= 999 ->
            writeJSONResponse w schema responseCode
              = Return None (state_of (writeJSONResponse w schema responseCode)) /\
            Code (state_of (writeJSONResponse w schema responseCode)) = code /\
            (bodyAllowedForStatus code = true ->
               sentHeader (state_of (writeJSONResponse w schema responseCode))
                 !! "Content-Type" = Some ["application/json"] /\
               Body (state_of (writeJSONResponse w schema responseCode))
                 = Body w +:+ b) /\
            (bodyAllowedForStatus code = false ->
               Body (state_of (writeJSONResponse w schema responseCode))
                 = Body w)).
  { intros Hready Hc.
    destruct (WriteJSONResponse_fresh w schema responseCode b Hb Hready Hc)
      as (Hres & _ & _ & _ & Hcode & Hh & Hsent & Hbody & Hnone).
    split; [exact Hres|]. split; [exact Hcode|].
    split; [|exact Hnone].
    intros Hallowed. split; [|exact (Hbody Hallowed)].
    rewrite Hsent, Hh. apply lookup_insert_eq. }
  split.
  { intros Hready Hnone.
    assert (Hcode200 : code = 200) by (subst code; now rewrite Hnone).
    assert (Hc : 200 <= code <= 999) by lia.
    destruct (Hfresh Hready Hc) as (Hres & Hcode & Hbody & _).
    destruct Hbody as [Hct Hbody]; [now rewrite Hcode200|].
    split; [exact Hres|]. split; [now rewrite Hcode|]. now split. }
  split; [exact Hfresh|].
  split.
  - intros Hw Hc.
    rewrite (WriteJSONResponse_invalid _ _ _ _ Hb Hw Hc). now repeat split.
  - intros Hw.
    destruct (WriteJSONResponse_committed w schema responseCode b Hb Hw)
      as (Hres & _ & Hcode & Hsent & _).
    now repeat split.
Qed.

(** C8, as amended.  [WriteJSONResponse] returns an Error Model exactly
    when the encoding fails; the Error Model has status 500 and the
    encoder's error as cause, and the sink is then as it was.  When the
    encoding succeeds it never returns an Error Model: it panics when the
    status is outside [100..999] and no status line was sent before, and
    returns [nil] in every other case, also when the write of the body
    reports an error. *)
Theorem WriteJSONResponse_error_iff w schema responseCode :
  let res := writeJSONResponse w schema responseCode in
  let code := match responseCode with Some given => given | None => 200 end in
  ((exists herr w', res = Return (Some herr) w')
     <-> (json_Marshal schema).2 <> None) /\
  (forall herr w', res = Return (Some herr) w' ->
      ResponseCode herr = 500 /\ Err herr = (json_Marshal schema).2 /\
      w' = w) /\
  (forall b, json_Marshal schema = (b, None) ->
      (panicked res = true <->
         wroteHeader w = false /\ checkWriteHeaderCode code = false) /\
      (panicked res = false -> res = Return None (state_of res)) /\
      (forall w2,
         WriteHeader code (Header_Set "Content-Type" "application/json" w)
           = Return tt w2 ->
         res = Return None (Write b w2).1) /\
      (wroteHeader w = true -> bodyAllowedForStatus (Code w) = true ->
       head w = false -> broken w = true -> b <> "" ->
         (Write b (Header_Set "Content-Type" "application/json" w)).2.2
           = Some ErrWriteFailed /\
         res = Return None (Header_Set "Content-Type" "application/json" w))).
Proof.
  intros res code. subst res.
  destruct (json_Marshal schema) as [b [err|]] eqn:Hb.
  - rewrite (WriteJSONResponse_failed _ _ _ _ _ Hb). cbn [fst snd].
    split; [split; [discriminate | intros _; now eexists _, _]|].
    split; [|intros b' Hb'; discriminate].
    intros herr w' Heq. injection Heq as <- <-. now repeat split.
  - pose proof (WriteJSONResponse_panics w schema responseCode b Hb) as Hp.
    pose proof (WriteJSONResponse_encoded w schema responseCode b Hb) as He.
    fold code in Hp, He. cbn [fst snd].
    assert (Hnever : forall herr w',
              writeJSONResponse w schema responseCode
                <> Return (Some herr) w').
    { intros herr w' Heq. rewrite He in Heq.
      destruct (WriteHeader code _) as [[] w2|w2]; discriminate. }
    split; [split; [intros (herr & w' & Heq); now destruct (Hnever herr w')
                   | intros H; now contradiction H]|].
    split; [intros herr w' Heq; now destruct (Hnever herr w')|].
    intros b' Hb'. injection Hb' as <-.
    split.
    { now rewrite Hp, andb_true_iff, !negb_true_iff. }
    split.
    { intros Hret. rewrite He in Hret |- *.
      destruct (WriteHeader code _) as [[] w2|w2]; [reflexivity | discriminate]. }
    split.
    { intros w2 Hw2. now rewrite He, Hw2. }
    intros Hw Hallowed Hh Hbr Hne.
    rewrite He, WriteHeader_again by (simpl; assumption).
    rewrite Write_broken by (simpl; assumption).
    now split.
Qed.

(** C9, as amended.  When the body decodes and the validation answers
    no without an error of its own, [ScanJSONBody] returns status 400
    with the fixed cause [Schema validation error]; the text does not
    depend on the record, so no field is named. *)
Theorem ScanJSONBody_validation_error r schema schema1 rest :
  json_Decode (ReqBody r) schema = (schema1, rest, None) ->
  valid_Valid schema1 = (false, None) ->
  (scanJSONBody r schema).2 =
    Some {| ResponseCode := 400;
            Err := Some (errors_New "Schema validation error") |}.
Proof.
  intros Hd Hv. rewrite ScanJSONBody_result, Hd. cbn [fst snd].
  now rewrite Hv.
Qed.


End ControllerClaims.

(** ** The properties on the small application *)

Section OnTheSample.

Import Sample.

Local Abbreviation run regs rq :=
  (Serve matchExact (configure regs) (incoming rq)).
Local Abbreviation scanJSON := (ScanJSONBody json_Decode valid_Valid).
Local Abbreviation scanForm :=
  (ScanForm (tt : unit) Decoder_Decode ParseForm).
Local Abbreviation scanQuery :=
  (ScanQuery (tt : unit) Decoder_Decode URL_Query).
Local Abbreviation scanVars := (ScanVars (tt : unit) Decoder_Decode).
Local Abbreviation writeJSON := (WriteJSONResponse json_Marshal).

(** A request refused by the second of three middleware: status 403,
    body [forbidden], neither the third middleware nor the controller
    called. *)
Lemma middleware_error_short_circuits_witness :
  let res := run guarded getItems in
  Returned (Middleware 1) (Some forbidden) stamped ∈ trace (state_of res) /\
  (Invoke (Middleware 2) ∉ trace (state_of res)) /\
  (Invoke (Controller 0) ∉ trace (state_of res)) /\
  panicked res = false /\
  Code (sink (env (state_of res))) = 403 /\
  Body (sink (env (state_of res))) = "forbidden" +:+ newline /\
  passed (middleware_of guarded) (withVars ∅ (incoming getItems)) 1
    [Invoke (Middleware 0); Returned (Middleware 0) None stamped] stamped /\
  res = translate forbidden
          {| env := stamped;
             trace := [Invoke (Middleware 0);
                       Returned (Middleware 0) None stamped]
                      ++ [Invoke (Middleware 1);
                          Returned (Middleware 1) (Some forbidden) stamped] |}.
Proof.
  intros res.
  assert (Hin : Returned (Middleware 1) (Some forbidden) stamped
                ∈ trace (state_of res))
    by (apply (list_elem_of_lookup_2 _ 3); vm_compute; reflexivity).
  assert (Hp : passed (middleware_of guarded)
                 (withVars ∅ (incoming getItems)) 1
                 [Invoke (Middleware 0); Returned (Middleware 0) None stamped]
                 stamped).
  { apply (passed_next _ _ 0 [] (withVars ∅ (incoming getItems)) stamp
             stamped (passed_none _ _)); reflexivity. }
  assert (Hready : ready (sink stamped)) by (repeat split; reflexivity).
  pose proof (middleware_error_short_circuits matchExact guarded
                (incoming getItems)) as Hthm.
  destruct Hthm as (_ & Hserve). cbv zeta in Hserve.
  destruct Hserve as (Hforward & Hserve).
  destruct (Hserve 1%nat forbidden stamped Hin)
    as (Hlater & Hctrl & _ & _ & Hcause).
  destruct (Hcause (errors_New "forbidden") eq_refl)
    as (_ & _ & _ & _ & Hfresh & _).
  destruct (Hfresh Hready ltac:(simpl; lia)) as (Hret & Hcode & Hbody).
  split; [exact Hin|]. split; [apply Hlater; lia|].
  split; [apply Hctrl|]. split; [exact Hret|]. split; [exact Hcode|].
  split; [exact (proj2 (Hbody eq_refl))|].
  split; [exact Hp|].
  exact (Hforward 0%nat "/items" hello ["GET"] ∅ 1%nat _ stamped deny
           forbidden stamped eq_refl Hp eq_refl eq_refl).
Defined.

(** C1 as stated fails.  A middleware that returns an Error Model without
    a cause makes the dispatcher panic before it writes anything: no
    status 403 and no body reach the sink.  After a middleware that
    answered by itself and passed, the Error Model of the next one cannot
    change the status any more: it stays 200, not 403.  And an Error
    Model whose status is 0 makes [http.Error] panic: no status and no
    body are sent. *)
Lemma middleware_error_counterexample :
  (let res := run blocked getItems in
   Returned (Middleware 1) (Some causeless) stamped ∈ trace (state_of res) /\
   panicked res = true /\
   sink (env (state_of res)) = sink stamped /\
   wroteHeader (sink (env (state_of res))) = false /\
   Code (sink (env (state_of res))) <> ResponseCode causeless) /\
  (let res := run doubled getItems in
   Returned (Middleware 1) (Some forbidden) (writes "hello" (incoming getItems))
     ∈ trace (state_of res) /\
   Code (sink (env (state_of res))) = 200 /\
   Code (sink (env (state_of res))) <> ResponseCode forbidden /\
   Body (sink (env (state_of res))) = "hello" +:+ ("forbidden" +:+ newline)) /\
  (let res := run zeroed getItems in
   Returned (Middleware 1) (Some zero) stamped ∈ trace (state_of res) /\
   Err zero = Some (errors_New "boom") /\
   panicked res = true /\
   wroteHeader (sink (env (state_of res))) = false /\
   Body (sink (env (state_of res))) = "").
Proof.
  split; [|split]; cbv zeta.
  - split; [apply (list_elem_of_lookup_2 _ 3); vm_compute; reflexivity|].
    split; [vm_compute; reflexivity|].
    split; [vm_compute; reflexivity|].
    split; [vm_compute; reflexivity|].
    vm_compute. discriminate.
  - split; [apply (list_elem_of_lookup_2 _ 3); vm_compute; reflexivity|].
    split; [vm_compute; reflexivity|].
    split; [vm_compute; discriminate|].
    vm_compute; reflexivity.
  - split; [apply (list_elem_of_lookup_2 _ 3); vm_compute; reflexivity|].
    split; [reflexivity|].
    split; [vm_compute; reflexivity|].
    split; vm_compute; reflexivity.
Qed.

(** A controller that fails without having written: the response is that
    of [http.Error] on the sink as the middleware left it. *)
Lemma error_translation_uniform_witness :
  let res := run failing getItems in
  Returned (Controller 0) (Some teapot) stamped ∈ trace (state_of res) /\
  sink (env (state_of res))
    = state_of (http_Error (sink stamped) "I am a teapot" 418) /\
  panicked res = false /\
  Code (sink (env (state_of res))) = 418 /\
  Body (sink (env (state_of res))) = "I am a teapot" +:+ newline.
Proof.
  intros res.
  assert (Hin : Returned (Controller 0) (Some teapot) stamped
                ∈ trace (state_of res))
    by (apply (list_elem_of_lookup_2 _ 3); vm_compute; reflexivity).
  assert (Hready : ready (sink stamped)) by (repeat split; reflexivity).
  pose proof (error_translation_uniform matchExact failing
                (incoming getItems)) as Hthm.
  destruct Hthm as (_ & Hserve). cbv zeta in Hserve.
  destruct (Hserve (Controller 0) teapot stamped Hin) as (_ & Hcause).
  destruct (Hcause (errors_New "I am a teapot") eq_refl)
    as ((Hsink & _ & _ & _ & Hfresh & _) & _).
  destruct (Hfresh Hready ltac:(simpl; lia)) as (Hret & Hcode & Hbody).
  split; [exact Hin|]. split; [exact Hsink|]. split; [exact Hret|].
  split; [exact Hcode | exact (proj2 (Hbody eq_refl))].
Defined.

(** C2 as stated fails.  For the Error Model without a cause that a
    controller returns, the dispatcher writes neither a status nor a
    body: evaluating the message panics first.  And for an Error Model
    whose status is 0 the dispatcher writes neither: [http.Error] panics
    in [WriteHeader]. *)
Lemma error_translation_counterexample :
  (let res := run failingBlank getItems in
   Returned (Controller 0) (Some causeless) stamped ∈ trace (state_of res) /\
   panicked res = true /\
   sink (env (state_of res)) = sink stamped /\
   wroteHeader (sink (env (state_of res))) = false /\
   Body (sink (env (state_of res))) = "" /\
   Code (sink (env (state_of res))) <> ResponseCode causeless) /\
  (let res := run failingZero getItems in
   Returned (Controller 0) (Some zero) stamped ∈ trace (state_of res) /\
   Err zero = Some (errors_New "boom") /\
   panicked res = true /\
   wroteHeader (sink (env (state_of res))) = false /\
   Body (sink (env (state_of res))) = "").
Proof.
  split; cbv zeta.
  - split; [apply (list_elem_of_lookup_2 _ 3); vm_compute; reflexivity|].
    split; [vm_compute; reflexivity|].
    split; [vm_compute; reflexivity|].
    split; [vm_compute; reflexivity|].
    split; [vm_compute; reflexivity|].
    vm_compute. discriminate.
  - split; [apply (list_elem_of_lookup_2 _ 3); vm_compute; reflexivity|].
    split; [reflexivity|].
    split; [vm_compute; reflexivity|].
    split; vm_compute; reflexivity.
Qed.

(** A request served to the end: the response is the sink of the
    controller. *)
Lemma controller_success_adds_nothing_witness :
  let res := run site getItems in
  Returned (Controller 0) None greeted ∈ trace (state_of res) /\
  res = Return tt {| env := greeted; trace := trace (state_of res) |} /\
  sink (env (state_of res)) = sink greeted /\
  passed (middleware_of site) (withVars ∅ (incoming getItems)) 1
    [Invoke (Middleware 0); Returned (Middleware 0) None stamped] stamped /\
  Action hello stamped = Return None greeted /\
  res = Return tt
          {| env := greeted;
             trace := [Invoke (Middleware 0);
                       Returned (Middleware 0) None stamped]
                      ++ [Invoke (Controller 0);
                          Returned (Controller 0) None greeted] |}.
Proof.
  intros res.
  assert (Hin : Returned (Controller 0) None greeted ∈ trace (state_of res))
    by (apply (list_elem_of_lookup_2 _ 3); vm_compute; reflexivity).
  assert (Hp : passed (middleware_of site)
                 (withVars ∅ (incoming getItems)) 1
                 [Invoke (Middleware 0); Returned (Middleware 0) None stamped]
                 stamped).
  { apply (passed_next _ _ 0 [] (withVars ∅ (incoming getItems)) stamp
             stamped (passed_none _ _)); reflexivity. }
  pose proof (controller_success_adds_nothing matchExact site
                (incoming getItems)) as Hthm.
  destruct Hthm as (_ & Hserve). cbv zeta in Hserve.
  destruct Hserve as (Hforward & Hserve).
  destruct (Hserve 0%nat greeted Hin) as (Hres & Hsink & _).
  split; [exact Hin|]. split; [exact Hres|]. split; [exact Hsink|].
  split; [exact Hp|]. split; [reflexivity|].
  exact (Hforward 0%nat "/items" hello ["GET"] ∅ _ stamped greeted
           eq_refl Hp eq_refl).
Defined.

(** Two middleware and a controller: when the second middleware is
    called, the first has been called and has returned [nil]; when the
    controller is called, both have, in the order of their
    registration. *)
Lemma middleware_order_then_controller_witness :
  let t := trace (state_of (run chained getItems)) in
  t = [Invoke (Middleware 0); Returned (Middleware 0) None stamped]
      ++ Invoke (Middleware 1)
         :: [Returned (Middleware 1) None stamped;
             Invoke (Controller 0); Returned (Controller 0) None greeted] /\
  (exists vars ei,
      passed (middleware_of chained) (withVars vars (incoming getItems)) 1
        [Invoke (Middleware 0); Returned (Middleware 0) None stamped] ei /\
      answer (Handle allow) (Middleware 1) ei
        (Returned (Middleware 1) None stamped)) /\
  (exists vars en,
      passed (middleware_of chained) (withVars vars (incoming getItems)) 2
        [Invoke (Middleware 0); Returned (Middleware 0) None stamped;
         Invoke (Middleware 1); Returned (Middleware 1) None stamped] en /\
      answer (Action hello) (Controller 0) en
        (Returned (Controller 0) None greeted)) /\
  (exists j, (j <= 2)%nat /\ middleware_calls t = seq 0 j) /\
  middleware_calls t = [0; 1]%nat.
Proof.
  intros t.
  assert (Hmid : t =
    [Invoke (Middleware 0); Returned (Middleware 0) None stamped]
    ++ Invoke (Middleware 1)
       :: [Returned (Middleware 1) None stamped;
           Invoke (Controller 0); Returned (Controller 0) None greeted])
    by (vm_compute; reflexivity).
  assert (Hend : t =
    [Invoke (Middleware 0); Returned (Middleware 0) None stamped;
     Invoke (Middleware 1); Returned (Middleware 1) None stamped]
    ++ Invoke (Controller 0) :: [Returned (Controller 0) None greeted])
    by (vm_compute; reflexivity).
  pose proof (middleware_order_then_controller matchExact chained
                (incoming getItems)) as Hthm.
  destruct Hthm as (_ & _ & Hrecord). cbv zeta in Hrecord.
  destruct Hrecord as (Hmw & Hctrl & Hcalls).
  split; [exact Hmid|]. split; [|split; [|split]].
  - destruct (Hmw _ _ _ Hmid) as (vars & ei & m & x & post' & Hp & Hm & Hx & Hans).
    injection Hm as <-. injection Hx as <- _.
    now exists vars, ei.
  - destruct (Hctrl _ _ _ Hend)
      as (route & c & methods & vars & en & x & Hk & Hp & Hx & Hans).
    injection Hk as _ <- _. injection Hx as <-.
    now exists vars, en.
  - exact Hcalls.
  - vm_compute. reflexivity.
Defined.

(** A [POST] to a route registered for [GET] only. *)
Lemma method_mismatch_never_invokes_witness :
  routes_of site !! 0%nat = Some ("/items", hello, ["GET"]) /\
  (Method (req (incoming postItems)) ∉ ["GET"]) /\
  (Invoke (Controller 0) ∉ trace (state_of (run site postItems))).
Proof.
  assert (Hk : routes_of site !! 0%nat = Some ("/items", hello, ["GET"]))
    by reflexivity.
  assert (Hm : Method (req (incoming postItems)) ∉ ["GET"]).
  { simpl. intros Hin. apply list_elem_of_singleton in Hin. discriminate. }
  split; [exact Hk|]. split; [exact Hm|].
  exact (method_mismatch_never_invokes matchExact site (incoming postItems)
           0 "/items" hello ["GET"] Hk Hm).
Defined.



(** The record [7] written without a status, and with status 201. *)
Lemma WriteJSONResponse_writes_json_witness :
  json_Marshal 7 = ("7", None) /\
  ready NewResponseWriter /\
  (let res := writeJSON NewResponseWriter 7 None in
   res = Return None (state_of res) /\
   Code (state_of res) = 200 /\
   sentHeader (state_of res) !! "Content-Type" = Some ["application/json"] /\
   Body (state_of res) = "7") /\
  (let res := writeJSON NewResponseWriter 7 (Some 201) in
   Code (state_of res) = 201 /\ Body (state_of res) = "7").
Proof.
  assert (Hb : json_Marshal 7 = ("7", None)) by reflexivity.
  assert (Hready : ready NewResponseWriter) by (repeat split; reflexivity).
  split; [exact Hb|]. split; [exact Hready|]. split.
  - pose proof (WriteJSONResponse_writes_json json_Marshal
                  NewResponseWriter 7 None "7" Hb) as Hthm.
    cbv zeta in Hthm. destruct Hthm as (_ & _ & _ & Hplain & _).
    exact (Hplain Hready eq_refl).
  - pose proof (WriteJSONResponse_writes_json json_Marshal
                  NewResponseWriter 7 (Some 201) "7" Hb) as Hthm.
    cbv zeta in Hthm. destruct Hthm as (_ & _ & _ & _ & Hgiven & _).
    destruct (Hgiven Hready ltac:(lia)) as (_ & Hcode & Hbody & _).
    split; [exact Hcode | exact (proj2 (Hbody eq_refl))].
Defined.

(** C7 as stated fails.  With the explicit status 0 the function panics
    in [WriteHeader]: no status is written and no body.  With the
    explicit status 204 the status is written and the encoding is not.
    And on a sink that has sent status 201, the explicit status 404 is
    not written. *)
Lemma WriteJSONResponse_status_counterexample :
  json_Marshal 7 = ("7", None) /\
  (let res := writeJSON NewResponseWriter 7 (Some 0) in
   panicked res = true /\ wroteHeader (state_of res) = false /\
   Body (state_of res) = "") /\
  (let res := writeJSON NewResponseWriter 7 (Some 204) in
   res = Return None (state_of res) /\ Code (state_of res) = 204 /\
   Body (state_of res) = "" /\ Body (state_of res) <> "7") /\
  (let sent := state_of (writeJSON NewResponseWriter 7 (Some 201)) in
   let res := writeJSON sent 7 (Some 404) in
   Code sent = 201 /\ Code (state_of res) = 201 /\
   Code (state_of res) <> 404).
Proof.
  split; [reflexivity|]. split; [|split]; cbv zeta.
  - split; [reflexivity|]. split; reflexivity.
  - split; [reflexivity|]. split; [reflexivity|].
    split; [reflexivity | discriminate].
  - split; [reflexivity|]. split; [reflexivity | discriminate].
Qed.

(** A record that cannot be encoded, and a record written to a sink
    whose peer is gone. *)
Lemma WriteJSONResponse_error_iff_witness :
  writeJSON stamped.(sink) (-1) None
    = Return (Some {| ResponseCode := 500;
                      Err := Some (errors_New "unsupported value") |})
             stamped.(sink) /\
  (let gone := {| Header := ∅; wroteHeader := true; Code := 200;
                  sentHeader := ∅; Body := ""; broken := true;
                  informational := []; head := false |} in
   (Write "7" (Header_Set "Content-Type" "application/json" gone)).2.2
     = Some ErrWriteFailed /\
   writeJSON gone 7 None
     = Return None (Header_Set "Content-Type" "application/json" gone)).
Proof.
  split.
  - pose proof (WriteJSONResponse_error_iff json_Marshal (sink stamped)
                  (-1) None) as Hthm.
    cbv zeta in Hthm. destruct Hthm as (Hiff & Herr & _).
    destruct (proj2 Hiff) as (herr & w' & Hret); [discriminate|].
    destruct (Herr herr w' Hret) as (Hcode & Hcause & ->).
    rewrite Hret. destruct herr as [code cause]. simpl in Hcode, Hcause.
    now subst.
  - intros gone.
    pose proof (WriteJSONResponse_error_iff json_Marshal gone 7 None) as Hthm.
    cbv zeta in Hthm. destruct Hthm as (_ & _ & Hok).
    destruct (Hok "7" eq_refl) as (_ & _ & _ & Hgone).
    exact (Hgone eq_refl eq_refl eq_refl eq_refl ltac:(discriminate)).
Defined.

(** C8 as stated fails.  The record [7] can be encoded, and with the
    explicit status 0 on a sink nothing was sent on
    [WriteJSONResponse] does not return [nil]: it panics. *)
Lemma WriteJSONResponse_nil_counterexample :
  json_Marshal 7 = ("7", None) /\
  panicked (writeJSON NewResponseWriter 7 (Some 0)) = true /\
  forall w', writeJSON NewResponseWriter 7 (Some 0) <> Return None w'.
Proof.
  split; [reflexivity|]. split; [reflexivity|]. intros w'. discriminate.
Qed.

(** The record [12] decodes and fails the validation. *)
Lemma ScanJSONBody_validation_error_witness :
  json_Decode (ReqBody twelve) 0 = (12, "", None) /\
  valid_Valid 12 = (false, None) /\
  (scanJSON twelve 0).2 =
    Some {| ResponseCode := 400;
            Err := Some (errors_New "Schema validation error") |}.
Proof.
  assert (Hd : json_Decode (ReqBody twelve) 0 = (12, "", None))
    by reflexivity.
  assert (Hv : valid_Valid 12 = (false, None)) by reflexivity.
  split; [exact Hd|]. split; [exact Hv|].
  exact (ScanJSONBody_validation_error json_Decode valid_Valid
           twelve 0 12 "" Hd Hv).
Defined.

(** C9 as stated fails: the cause message of the validation failure is
    not the text [schema validation error] but [Schema validation
    error], with a capital letter. *)
Lemma ScanJSONBody_validation_counterexample :
  json_Decode (ReqBody twelve) 0 = (12, "", None) /\
  valid_Valid 12 = (false, None) /\
  exists herr err,
    (scanJSON twelve 0).2 = Some herr /\
    ResponseCode herr = 400 /\
    Err herr = Some err /\
    Error err = "Schema validation error" /\
    Error err <> "schema validation error".
Proof.
  split; [reflexivity|]. split; [reflexivity|].
  eexists; eexists. split; [reflexivity|]. split; [reflexivity|].
  split; [reflexivity|]. split; [reflexivity | discriminate].
Qed.



End OnTheSample.

(** * Further properties of the code *)

(** ** The dispatcher: panics, frame, calls *)

Section DispatchFacts.

Context {AppState : Type}.

Variable matchTemplate : string -> string -> option (gmap string string).

Implicit Types (st : @State AppState) (e : @Env AppState)
  (t : list (@Event AppState)) (regs : list (@Registration AppState))
  (ms : list (@MiddlewareInterface AppState)).

(** A middleware that panics: the closure has no [recover], the panic
    goes through it. *)
Lemma middlewareFunc_panic i (m : @MiddlewareInterface AppState) next st e' :
  Handle m (env st) = Panic e' ->
  middlewareFunc i m next st =
  Panic {| env := e';
           trace := trace st ++ [Invoke (Middleware i);
                                 Panicked (Middleware i) e'] |}.
Proof. intros Hh. unfold middlewareFunc, call. now rewrite Hh. Qed.

Lemma routeFunc_panic k (c : @ControllerInterface AppState) st e' :
  Action c (env st) = Panic e' ->
  routeFunc k c st =
  Panic {| env := e';
           trace := trace st ++ [Invoke (Controller k);
                                 Panicked (Controller k) e'] |}.
Proof. intros Ha. unfold routeFunc, call. now rewrite Ha. Qed.

(** The handler of a route only adds to the record. *)
Lemma routeFunc_trace k (c : @ControllerInterface AppState) st :
  exists x, answer (Action c) (Controller k) (env st) x /\
    trace (state_of (routeFunc k c st)) =
    trace st ++ [Invoke (Controller k); x].
Proof.
  destruct (Action c (env st)) as [[herr|] e'|e'] eqn:Ha.
  - exists (Returned (Controller k) (Some herr) e').
    split; [now constructor|].
    now rewrite (routeFunc_error _ _ _ _ _ Ha), translate_trace.
  - exists (Returned (Controller k) None e').
    split; [now constructor|]. now rewrite (routeFunc_done _ _ _ _ Ha).
  - exists (Panicked (Controller k) e').
    split; [now constructor|]. now rewrite (routeFunc_panic _ _ _ _ Ha).
Qed.

(** Neither does the chain around it. *)
Lemma chain_trace_prefix k (c : @ControllerInterface AppState) ms :
  forall n st,
  trace st `prefix_of`
  trace (state_of
    (chain (imap (fun i => middlewareFunc (n + i)) ms) (routeFunc k c) st)).
Proof.
  induction ms as [|m ms IH]; intros n st.
  - simpl. destruct (routeFunc_trace k c st) as (x & _ & ->).
    now apply prefix_app_r.
  - rewrite chain_imap_cons.
    destruct (Handle m (env st)) as [[herr|] e'|e'] eqn:Hh.
    + rewrite (middlewareFunc_error _ _ _ _ _ _ Hh), translate_trace.
      now apply prefix_app_r.
    + rewrite (middlewareFunc_pass _ _ _ _ _ Hh).
      etransitivity; [|apply IH]. now apply prefix_app_r.
    + rewrite (middlewareFunc_panic _ _ _ _ _ Hh). now apply prefix_app_r.
Qed.

(** A call of a middleware that passed sits at twice its place. *)
Lemma passed_Invoke_at ms e0 n t e p s :
  passed ms e0 n t e -> t !! p = Some (Invoke s) ->
  exists i, s = Middleware i /\ p = (2 * i)%nat /\ (i < n)%nat.
Proof.
  intros Hp Hl.
  destruct (passed_Invoke _ _ _ _ _ _ Hp (list_elem_of_lookup_2 _ _ _ Hl))
    as (i & -> & Hlt).
  destruct (passed_before _ _ _ _ _ _ _ Hp Hl) as (ei & m & e' & Hpi & _).
  apply passed_length in Hpi. rewrite length_take in Hpi.
  apply lookup_lt_Some in Hl. exists i. repeat split; [lia | exact Hlt].
Qed.

(** The last entry of a record that ends with a call and its answer. *)
Lemma last_ending {A : Type} (t0 : list A) (a b : A) :
  last (t0 ++ [a; b]) = Some b.
Proof.
  change [a; b] with ([a] ++ [b]). rewrite app_assoc. apply last_snoc.
Qed.

End DispatchFacts.

Section DispatchExtras.

Context {AppState : Type}.

Variable matchTemplate : string -> string -> option (gmap string string).

Implicit Types (e : @Env AppState) (regs : list (@Registration AppState)).

(** X1.  Neither closure of the dispatcher recovers from a panic.  When
    the [Handle] of a middleware or the [Action] of a controller panics,
    the closure panics with it and does nothing more.  So, in the
    dispatch of a request, a stage that panicked was the last stage
    called, every middleware before it had returned [nil], and the
    dispatch panics on the state the stage left: the dispatcher writes
    nothing, and no Error Model is translated. *)
Theorem panic_ends_dispatch regs e :
  (forall i (m : @MiddlewareInterface AppState) next st e',
      Handle m (env st) = Panic e' ->
      middlewareFunc i m next st =
      Panic {| env := e';
               trace := trace st ++ [Invoke (Middleware i);
                                     Panicked (Middleware i) e'] |}) /\
  (forall k (c : @ControllerInterface AppState) st e',
      Action c (env st) = Panic e' ->
      routeFunc k c st =
      Panic {| env := e';
               trace := trace st ++ [Invoke (Controller k);
                                     Panicked (Controller k) e'] |}) /\
  let res := Serve matchTemplate (configure regs) e in
  forall s e',
    Panicked s e' ∈ trace (state_of res) ->
    res = Panic {| env := e'; trace := trace (state_of res) |} /\
    exists k route c methods vars j t0 ej f,
      routes_of regs !! k = Some (route, c, methods) /\
      passed (middleware_of regs) (withVars vars e) j t0 ej /\
      trace (state_of res) = t0 ++ [Invoke s; Panicked s e'] /\
      (s = Controller k /\ j = length (middleware_of regs) /\ f = Action c \/
       exists m, s = Middleware j /\ middleware_of regs !! j = Some m /\
                 f = Handle m) /\
      f ej = Panic e'.
Proof.
  split; [intros i m next st e' Hh; now apply middlewareFunc_panic|].
  split; [intros k c st e' Ha; now apply routeFunc_panic|].
  intros res s e' Hin.
  assert (Hne : trace (state_of res) <> [])
    by holds_event Hin.
  destruct (Serve_last matchTemplate regs e Hne)
    as (k & route & c & methods & vars & j & t0 & ej & s0 & f & x
        & Hk & _ & Hp & Ht & Hstage & Hans & Hout).
  fold res in Ht, Hout. rewrite Ht in Hin.
  in_ending Hin.
  - now apply (passed_Panicked _ _ _ _ _ s e' Hp) in Hin.
  - discriminate.
  - subst x. cbn in Hout. split; [exact Hout|].
    inversion Hans as [|e1 Hf [Hs He1]]. subst s0 e1.
    exists k, route, c, methods, vars, j, t0, ej, f. now repeat split.
Qed.

(** X2.  The dispatcher never changes the request or the state of the
    application, and it writes to the response sink only to translate an
    Error Model that has a cause.  After any dispatch that called a
    stage, the request and the application state are those the last
    stage called left behind; the sink is the one that stage left, but
    for the one call of [http.Error] when the stage returned an Error
    Model with a cause (the sink is then what that call left, whether it
    returned or panicked). *)
Theorem dispatcher_only_translates regs e :
  let res := Serve matchTemplate (configure regs) e in
  forall x, last (trace (state_of res)) = Some x ->
    match x with
    | Returned _ herr e' =>
        req (env (state_of res)) = req e' /\
        app (env (state_of res)) = app e' /\
        match herr with
        | None => sink (env (state_of res)) = sink e'
        | Some h =>
            match Err h with
            | None => sink (env (state_of res)) = sink e'
            | Some err =>
                sink (env (state_of res)) =
                state_of (http_Error (sink e') (Error err) (ResponseCode h))
            end
        end
    | Panicked _ e' => env (state_of res) = e'
    | Invoke _ => False
    end.
Proof.
  intros res x Hlast.
  assert (Hne : trace (state_of res) <> [])
    by (intros Hnil; rewrite Hnil in Hlast; discriminate).
  destruct (Serve_last matchTemplate regs e Hne)
    as (k & route & c & methods & vars & j & t0 & ej & s0 & f & x0
        & _ & _ & _ & Ht & _ & _ & Hout).
  fold res in Ht, Hout. rewrite Ht, last_ending in Hlast.
  injection Hlast as ->.
  destruct x as [s|s [h|] e'|s e']; [exact Hout| | |].
  - rewrite Hout. destruct (Err h) as [err|] eqn:Herr.
    + rewrite (translate_cause _ _ _ Herr), on_sink_state.
      now repeat split.
    + rewrite (translate_nil _ _ Herr). now repeat split.
  - destruct Hout as [_ ->]. now repeat split.
  - now rewrite Hout.
Qed.

(** X3.  In the dispatch of one request no stage is called twice, and at
    most one controller is called: two calls of the same stage in the
    record are one and the same entry, and so are two calls of
    controllers. *)
Theorem stages_called_at_most_once regs e :
  let t := trace (state_of (Serve matchTemplate (configure regs) e)) in
  (forall p q s,
      t !! p = Some (Invoke s) -> t !! q = Some (Invoke s) -> p = q) /\
  (forall p q k1 k2,
      t !! p = Some (Invoke (Controller k1)) ->
      t !! q = Some (Invoke (Controller k2)) -> p = q /\ k1 = k2).
Proof.
  intros t.
  assert (Hplace : exists n : nat, forall p s, t !! p = Some (Invoke s) ->
            match s with
            | Middleware i => p = (2 * i)%nat
            | Controller _ => p = n
            end).
  { destruct (decide (t = [])) as [Hnil | Hne].
    { exists 0%nat. intros p s Hl. rewrite Hnil in Hl. discriminate. }
    destruct (Serve_last matchTemplate regs e Hne)
      as (k & route & c & methods & vars & j & t0 & ej & s0 & f & x
          & _ & _ & Hp & Ht & Hstage & Hans & _).
    fold t in Ht. exists (length t0). intros p s Hl. rewrite Ht in Hl.
    apply lookup_ending in Hl as [[_ Hl] | [[Hlen Hev] | [_ Hev]]].
    - now destruct (passed_Invoke_at _ _ _ _ _ _ _ Hp Hl) as (i & -> & -> & _).
    - injection Hev as ->. rewrite Hlen.
      destruct s0 as [i|k0]; [|reflexivity].
      destruct Hstage as [(Heq & _) | (m & Heq & _)]; [discriminate|].
      injection Heq as ->. apply passed_length in Hp. exact Hp.
    - subst x. now apply answer_not_Invoke in Hans. }
  destruct Hplace as (n & Hplace). split.
  - intros p q s Hp Hq.
    pose proof (Hplace _ _ Hp) as H1. pose proof (Hplace _ _ Hq) as H2.
    destruct s; lia.
  - intros p q k1 k2 Hp Hq.
    pose proof (Hplace _ _ Hp) as H1. pose proof (Hplace _ _ Hq) as H2.
    simpl in H1, H2. subst p q. split; [reflexivity|].
    rewrite Hp in Hq. now injection Hq.
Qed.

End DispatchExtras.

(** ** The setup phase and the progress of a request *)

Section SetupExtras.

Context {AppState : Type}.

Variable matchTemplate : string -> string -> option (gmap string string).

Implicit Types (e : @Env AppState) (s : @HTTPServer AppState)
  (regs : list (@Registration AppState)).

(** X4.  [AddMiddleware] and [AddRoute] do not interfere: a call of the
    one and a call of the other can be swapped, so a server depends only
    on the order of its [AddMiddleware] calls among themselves and on the
    order of its [AddRoute] calls among themselves.  Two setups that
    agree on both give the same server and serve every request alike; in
    particular a middleware registered after a route guards that route
    too. *)
Theorem registration_kinds_commute :
  (forall s (m : @MiddlewareInterface AppState) route c methods,
      AddMiddleware m (AddRoute route c methods s) =
      AddRoute route c methods (AddMiddleware m s)) /\
  (forall regs1 regs2,
      middleware_of regs1 = middleware_of regs2 ->
      routes_of regs1 = routes_of regs2 ->
      configure regs1 = configure regs2 /\
      forall e, Serve matchTemplate (configure regs1) e =
                Serve matchTemplate (configure regs2) e).
Proof.
  split; [reflexivity|].
  intros regs1 regs2 Hm Hr.
  assert (Heq : configure regs1 = configure regs2).
  { pose proof (configure_middlewares regs1) as Hm1.
    pose proof (configure_middlewares regs2) as Hm2.
    pose proof (configure_routes regs1) as Hr1.
    pose proof (configure_routes regs2) as Hr2.
    destruct (configure regs1) as [[rs1 ms1]].
    destruct (configure regs2) as [[rs2 ms2]].
    simpl in Hm1, Hm2, Hr1, Hr2. congruence. }
  split; [exact Heq|]. intros e. now rewrite Heq.
Qed.

(** X5.  No stage is skipped.  In the dispatch of a matched request,
    once the first [i] middleware have returned [nil], middleware [i] is
    called on the state they left, and the record goes on with that call
    and its answer; once all the middleware have returned [nil], the
    controller of the matched route is called on the state they left,
    and the record ends with that call and its answer. *)
Theorem next_stage_is_called regs e k route c methods vars :
  Match matchTemplate (routes (router (configure regs))) (req e)
    = Matched (entry k (route, c, methods)) vars ->
  let t := trace (state_of (Serve matchTemplate (configure regs) e)) in
  (forall i ti ei m,
      passed (middleware_of regs) (withVars vars e) i ti ei ->
      middleware_of regs !! i = Some m ->
      exists x, answer (Handle m) (Middleware i) ei x /\
                (ti ++ [Invoke (Middleware i); x]) `prefix_of` t) /\
  (forall tn en,
      passed (middleware_of regs) (withVars vars e)
             (length (middleware_of regs)) tn en ->
      exists x, answer (Action c) (Controller k) en x /\
                t = tn ++ [Invoke (Controller k); x]).
Proof.
  intros HM t. subst t. split.
  - intros i ti ei m Hp Hm.
    rewrite (Serve_passed _ _ _ _ _ _ _ _ _ _ _ HM Hp).
    rewrite (drop_S _ _ _ Hm), chain_imap_cons.
    destruct (Handle m ei) as [[herr|] e'|e'] eqn:Hh.
    + exists (Returned (Middleware i) (Some herr) e').
      split; [now constructor|].
      rewrite (middlewareFunc_error i m _ {| env := ei; trace := ti |} herr e')
        by exact Hh.
      now rewrite translate_trace.
    + exists (Returned (Middleware i) None e').
      split; [now constructor|].
      rewrite (middlewareFunc_pass i m _ {| env := ei; trace := ti |} e')
        by exact Hh.
      apply (chain_trace_prefix k c _ (S i)
               {| env := e';
                  trace := ti ++ [Invoke (Middleware i);
                                  Returned (Middleware i) None e'] |}).
    + exists (Panicked (Middleware i) e').
      split; [now constructor|].
      now rewrite (middlewareFunc_panic i m _ {| env := ei; trace := ti |} e')
        by exact Hh.
  - intros tn en Hp.
    rewrite (Serve_reaches_controller _ _ _ _ _ _ _ _ _ _ HM Hp).
    exact (routeFunc_trace k c {| env := en; trace := tn |}).
Qed.

End SetupExtras.

(** ** The helpers: the decoder, the record, the sink *)

Section ControllerFacts.

Context {Schema Decoder : Type}.

Variable NewDecoder : Decoder.
Variable Decoder_Decode :
  Decoder -> Schema -> gmap string (list string) -> Schema * option error.
Variable URL_Query : string -> gmap string (list string).
Variable ParseForm : Request -> Request * option error.
Variable json_Decode : string -> Schema -> Schema * string * option error.
Variable json_Marshal : Schema -> string * option error.
Variable valid_Valid : Schema -> bool * option error.

Local Abbreviation decoderOf c := (getSchemaDecoder NewDecoder c).1.
Local Abbreviation storedIn c := (getSchemaDecoder NewDecoder c).2.
Local Abbreviation scanQuery :=
  (ScanQuery NewDecoder Decoder_Decode URL_Query).
Local Abbreviation scanVars := (ScanVars NewDecoder Decoder_Decode).
Local Abbreviation scanForm :=
  (ScanForm NewDecoder Decoder_Decode ParseForm).
Local Abbreviation scanJSONBody := (ScanJSONBody json_Decode valid_Valid).
Local Abbreviation writeJSONResponse := (WriteJSONResponse json_Marshal).

Implicit Types (c : @AbstractController Decoder) (r : Request)
  (schema : Schema) (w : ResponseWriter).

(** The decoder handed out is the decoder stored. *)
Lemma getSchemaDecoder_stored c :
  schemaDecoder (storedIn c) = Some (decoderOf c).
Proof.
  unfold getSchemaDecoder. now destruct (schemaDecoder c) eqn:Hc.
Qed.

(** Once a decoder is stored, it is handed out and nothing changes. *)
Lemma getSchemaDecoder_held c d :
  schemaDecoder c = Some d -> getSchemaDecoder NewDecoder c = (d, c).
Proof. intros Hc. unfold getSchemaDecoder. now rewrite Hc. Qed.

(** The three form scans, all of their result. *)
Lemma ScanQuery_full c r schema :
  let out := Decoder_Decode (decoderOf c) schema (URL_Query (URL_RawQuery r)) in
  scanQuery c r schema = (storedIn c, out.1, bad_request <$> out.2).
Proof.
  unfold ScanQuery.
  destruct (getSchemaDecoder NewDecoder c) as [d c1]. simpl.
  destruct (Decoder_Decode d schema _) as [schema1 [err|]]; reflexivity.
Qed.

Lemma ScanVars_full c r schema :
  let out := Decoder_Decode (decoderOf c) schema ((fun v => [v]) <$> Vars r) in
  scanVars c r schema = (storedIn c, out.1, bad_request <$> out.2).
Proof.
  unfold ScanVars.
  destruct (getSchemaDecoder NewDecoder c) as [d c1]. simpl.
  destruct (Decoder_Decode d schema _) as [schema1 [err|]]; reflexivity.
Qed.

Lemma ScanForm_parsed c r schema :
  (ParseForm r).2 = None ->
  let out := Decoder_Decode (decoderOf c) schema (PostForm (ParseForm r).1) in
  scanForm c r schema =
    (storedIn c, (ParseForm r).1, out.1, bad_request <$> out.2).
Proof.
  unfold ScanForm. destruct (ParseForm r) as [r1 [err|]]; [discriminate|].
  intros _. destruct (getSchemaDecoder NewDecoder c) as [d c1]. simpl.
  destruct (Decoder_Decode d schema _) as [schema1 [err|]]; reflexivity.
Qed.

Lemma ScanForm_unparsed c r schema err :
  (ParseForm r).2 = Some err ->
  scanForm c r schema = (c, (ParseForm r).1, schema, Some (bad_request err)).
Proof.
  unfold ScanForm. destruct (ParseForm r) as [r1 [err1|]]; [|discriminate].
  simpl. now intros [= ->].
Qed.

(** What [ScanJSONBody] leaves in the request and in the record. *)
Lemma ScanJSONBody_effect r schema :
  (scanJSONBody r schema).1 =
  (setBody (json_Decode (ReqBody r) schema).1.2 r,
   (json_Decode (ReqBody r) schema).1.1).
Proof.
  unfold ScanJSONBody.
  destruct (json_Decode (ReqBody r) schema) as [[schema1 rest] [err|]];
    [reflexivity|]. simpl.
  destruct (valid_Valid schema1) as [[|] [err|]]; reflexivity.
Qed.

End ControllerFacts.

Section ControllerExtras.

Context {Schema Decoder : Type}.

Variable NewDecoder : Decoder.
Variable Decoder_Decode :
  Decoder -> Schema -> gmap string (list string) -> Schema * option error.
Variable URL_Query : string -> gmap string (list string).
Variable ParseForm : Request -> Request * option error.
Variable json_Decode : string -> Schema -> Schema * string * option error.
Variable json_Marshal : Schema -> string * option error.
Variable valid_Valid : Schema -> bool * option error.

Local Abbreviation decoderOf c := (getSchemaDecoder NewDecoder c).1.
Local Abbreviation storedIn c := (getSchemaDecoder NewDecoder c).2.
Local Abbreviation scanQuery :=
  (ScanQuery NewDecoder Decoder_Decode URL_Query).
Local Abbreviation scanVars := (ScanVars NewDecoder Decoder_Decode).
Local Abbreviation scanForm :=
  (ScanForm NewDecoder Decoder_Decode ParseForm).
Local Abbreviation scanJSONBody := (ScanJSONBody json_Decode valid_Valid).
Local Abbreviation writeJSONResponse := (WriteJSONResponse json_Marshal).

Implicit Types (c : @AbstractController Decoder) (r : Request)
  (schema : Schema) (w : ResponseWriter).

(** X6.  [getSchemaDecoder] creates the decoder at most once.  The
    decoder it hands out is the one the controller holds afterwards; a
    second call hands out the same decoder and changes nothing; a decoder
    the controller already held is handed out as it is and never
    replaced; only a controller without one gets a new decoder. *)
Theorem getSchemaDecoder_caches c :
  let d := decoderOf c in
  let c1 := storedIn c in
  schemaDecoder c1 = Some d /\
  getSchemaDecoder NewDecoder c1 = (d, c1) /\
  (forall d0, schemaDecoder c = Some d0 -> d = d0 /\ c1 = c) /\
  (schemaDecoder c = None -> d = NewDecoder).
Proof.
  intros d c1. subst d c1.
  split; [apply getSchemaDecoder_stored|].
  split; [apply getSchemaDecoder_held, getSchemaDecoder_stored|].
  split.
  - intros d0 Hc. now rewrite (getSchemaDecoder_held _ _ _ Hc).
  - intros Hc. unfold getSchemaDecoder. now rewrite Hc.
Qed.

(** X7.  All the scans of one controller go through one decoder.  After
    [ScanQuery], [ScanVars], or a [ScanForm] whose form was parsed, the
    controller holds the decoder that scan used; every later scan uses
    that same decoder and leaves the controller as it is.  A [ScanForm]
    whose form cannot be parsed returns before the decoder is asked for:
    the controller is left as it was, without a decoder if it had
    none. *)
Theorem scans_share_one_decoder c r schema :
  let d := decoderOf c in
  let settled c1 :=
    schemaDecoder c1 = Some d /\
    forall r' schema',
      scanQuery c1 r' schema' =
        (c1, (Decoder_Decode d schema' (URL_Query (URL_RawQuery r'))).1,
         bad_request <$>
           (Decoder_Decode d schema' (URL_Query (URL_RawQuery r'))).2) /\
      scanVars c1 r' schema' =
        (c1, (Decoder_Decode d schema' ((fun v => [v]) <$> Vars r')).1,
         bad_request <$>
           (Decoder_Decode d schema' ((fun v => [v]) <$> Vars r')).2) /\
      (scanForm c1 r' schema').1.1.1 = c1 /\
      ((ParseForm r').2 = None ->
         (scanForm c1 r' schema').2 =
         bad_request <$>
           (Decoder_Decode d schema' (PostForm (ParseForm r').1)).2) in
  settled (scanQuery c r schema).1.1 /\
  settled (scanVars c r schema).1.1 /\
  ((ParseForm r).2 = None -> settled (scanForm c r schema).1.1.1) /\
  ((ParseForm r).2 <> None -> (scanForm c r schema).1.1.1 = c).
Proof.
  intros d settled.
  assert (Hset : settled (storedIn c)).
  { pose proof (getSchemaDecoder_held NewDecoder _ _
                  (getSchemaDecoder_stored NewDecoder c)) as Hheld.
    split; [apply getSchemaDecoder_stored|].
    intros r' schema'.
    pose proof (ScanQuery_full NewDecoder Decoder_Decode URL_Query
                  (storedIn c) r' schema') as Hq.
    pose proof (ScanVars_full NewDecoder Decoder_Decode
                  (storedIn c) r' schema') as Hv.
    cbv zeta in Hq, Hv. rewrite Hheld in Hq, Hv. cbn [fst snd] in Hq, Hv.
    split; [exact Hq|]. split; [exact Hv|].
    destruct (ParseForm r').2 as [err|] eqn:Hpf.
    - rewrite (ScanForm_unparsed NewDecoder Decoder_Decode ParseForm
                 _ _ _ _ Hpf).
      split; [reflexivity | discriminate].
    - pose proof (ScanForm_parsed NewDecoder Decoder_Decode ParseForm
                    (storedIn c) r' schema' Hpf) as Hf.
      cbv zeta in Hf. rewrite Hheld in Hf. cbn [fst snd] in Hf.
      rewrite Hf. now split. }
  split; [now rewrite ScanQuery_full|].
  split; [now rewrite ScanVars_full|].
  split.
  - intros Hpf.
    now rewrite (ScanForm_parsed NewDecoder Decoder_Decode ParseForm
                   _ _ _ Hpf).
  - intros Hpf. destruct (ParseForm r).2 as [err|] eqn:Herr;
      [|now contradiction Hpf].
    now rewrite (ScanForm_unparsed NewDecoder Decoder_Decode ParseForm
                   _ _ _ _ Herr).
Qed.

(** X8.  A scan that fails does not restore the record.  Whatever they
    return, [ScanQuery], [ScanVars] and [ScanForm] leave in the record
    what the decoder left there, and [ScanJSONBody] what the JSON decoder
    left there, with the body of the request read up to where that
    decoder stopped, also when the validation then fails.  Only a
    [ScanForm] whose form cannot be parsed leaves the record as it
    was. *)
Theorem scans_leave_decoded_record c r schema :
  (scanQuery c r schema).1.2 =
    (Decoder_Decode (decoderOf c) schema (URL_Query (URL_RawQuery r))).1 /\
  (scanVars c r schema).1.2 =
    (Decoder_Decode (decoderOf c) schema ((fun v => [v]) <$> Vars r)).1 /\
  (scanForm c r schema).1.1.2 = (ParseForm r).1 /\
  ((ParseForm r).2 = None ->
     (scanForm c r schema).1.2 =
     (Decoder_Decode (decoderOf c) schema (PostForm (ParseForm r).1)).1) /\
  ((ParseForm r).2 <> None -> (scanForm c r schema).1.2 = schema) /\
  (scanJSONBody r schema).1.2 = (json_Decode (ReqBody r) schema).1.1 /\
  (scanJSONBody r schema).1.1 =
    setBody (json_Decode (ReqBody r) schema).1.2 r.
Proof.
  split; [now rewrite ScanQuery_full|].
  split; [now rewrite ScanVars_full|].
  split.
  { destruct (ParseForm r).2 as [err|] eqn:Hpf.
    - now rewrite (ScanForm_unparsed NewDecoder Decoder_Decode ParseForm
                     _ _ _ _ Hpf).
    - now rewrite (ScanForm_parsed NewDecoder Decoder_Decode ParseForm
                     _ _ _ Hpf). }
  split.
  { intros Hpf.
    now rewrite (ScanForm_parsed NewDecoder Decoder_Decode ParseForm
                   _ _ _ Hpf). }
  split.
  { intros Hpf. destruct (ParseForm r).2 as [err|] eqn:Herr;
      [|now contradiction Hpf].
    now rewrite (ScanForm_unparsed NewDecoder Decoder_Decode ParseForm
                   _ _ _ _ Herr). }
  split; now rewrite ScanJSONBody_effect.
Qed.

(** X9.  [ScanVars] hands the decoder one value per route variable: the
    values it decodes from have exactly the names of the route variables
    of the request, each bound to the one-element list of its value.  So
    route variables are decoded as a query is that gives every name its
    one value. *)
Theorem ScanVars_one_value_per_variable c r schema :
  exists mVars : gmap string (list string),
    (forall k, mVars !! k = (fun v => [v]) <$> (Vars r !! k)) /\
    dom mVars = dom (Vars r) /\
    scanVars c r schema =
      (storedIn c, (Decoder_Decode (decoderOf c) schema mVars).1,
       bad_request <$> (Decoder_Decode (decoderOf c) schema mVars).2) /\
    forall r', URL_Query (URL_RawQuery r') = mVars ->
      scanVars c r schema = scanQuery c r' schema.
Proof.
  exists ((fun v => [v]) <$> Vars r).
  split; [intros k; apply lookup_fmap|].
  split; [apply dom_fmap_L|].
  split; [apply ScanVars_full|].
  intros r' Hq. now rewrite ScanVars_full, ScanQuery_full, Hq.
Qed.


End ControllerExtras.

(** ** The helpers under the dispatcher *)

Section AnswerExtras.

Context {AppState Schema Decoder : Type}.

Variable NewDecoder : Decoder.
Variable Decoder_Decode :
  Decoder -> Schema -> gmap string (list string) -> Schema * option error.
Variable URL_Query : string -> gmap string (list string).
Variable ParseForm : Request -> Request * option error.
Variable json_Decode : string -> Schema -> Schema * string * option error.
Variable json_Marshal : Schema -> string * option error.
Variable valid_Valid : Schema -> bool * option error.

Local Abbreviation scanQuery :=
  (ScanQuery NewDecoder Decoder_Decode URL_Query).
Local Abbreviation scanVars := (ScanVars NewDecoder Decoder_Decode).
Local Abbreviation scanForm :=
  (ScanForm NewDecoder Decoder_Decode ParseForm).
Local Abbreviation scanJSONBody := (ScanJSONBody json_Decode valid_Valid).
Local Abbreviation writeJSONResponse := (WriteJSONResponse json_Marshal).

Implicit Types (c : @AbstractController Decoder) (r : Request)
  (schema : Schema) (w : ResponseWriter) (st : @State AppState).

(** X12.  An Error Model one of the helpers returned never makes the
    dispatcher panic.  Whatever [ScanQuery], [ScanVars], [ScanForm],
    [ScanJSONBody] or [WriteJSONResponse] returns as an Error Model has
    a cause and status 400 or 500; a controller or a middleware that
    hands it on gets it translated: the closure of the dispatcher
    returns, and the sink is the one the stage left after the one call
    [http.Error(w, cause message, status)]. *)
Theorem helper_errors_are_translated c r schema w responseCode herr st :
  Some herr ∈ [ (scanQuery c r schema).2; (scanVars c r schema).2;
                (scanForm c r schema).2; (scanJSONBody r schema).2 ] \/
  (exists w', writeJSONResponse w schema responseCode
                = Return (Some herr) w') ->
  exists err,
    Err herr = Some err /\
    (ResponseCode herr = 400 \/ ResponseCode herr = 500) /\
    (forall k (ctl : @ControllerInterface AppState) e',
        Action ctl (env st) = Return (Some herr) e' ->
        routeFunc k ctl st =
        Return tt
          {| env := {| sink := state_of (http_Error (sink e') (Error err)
                                           (ResponseCode herr));
                       req := req e'; app := app e' |};
             trace := trace st ++ [Invoke (Controller k);
                                   Returned (Controller k) (Some herr) e'] |}) /\
    (forall i (m : @MiddlewareInterface AppState) next e',
        Handle m (env st) = Return (Some herr) e' ->
        middlewareFunc i m next st =
        Return tt
          {| env := {| sink := state_of (http_Error (sink e') (Error err)
                                           (ResponseCode herr));
                       req := req e'; app := app e' |};
             trace := trace st ++ [Invoke (Middleware i);
                                   Returned (Middleware i) (Some herr) e'] |}).
Proof.
  intros Hin.
  assert (Hcause : exists err,
            Err herr = Some err /\
            (ResponseCode herr = 400 \/ ResponseCode herr = 500)).
  { destruct Hin as [Hin | (w' & Hret)].
    - assert (Hbad : forall o : option error,
                 Some herr = bad_request <$> o ->
                 exists err, Err herr = Some err /\
                   (ResponseCode herr = 400 \/ ResponseCode herr = 500)).
      { intros [err|] Heq; [|discriminate]. injection Heq as ->.
        exists err. split; [reflexivity | now left]. }
      rewrite ScanQuery_result, ScanVars_result, ScanForm_result,
        ScanJSONBody_result in Hin.
      repeat (apply elem_of_cons in Hin as [Hin | Hin];
              [exact (Hbad _ Hin)|]).
      now apply elem_of_nil in Hin.
    - destruct (json_Marshal schema) as [b [err|]] eqn:Hb.
      + rewrite (WriteJSONResponse_failed _ _ _ _ _ _ Hb) in Hret.
        injection Hret as <- _. exists err.
        split; [reflexivity | now right].
      + rewrite (WriteJSONResponse_encoded _ _ _ _ _ Hb) in Hret.
        destruct (WriteHeader _ _) as [[] w2|w2]; discriminate. }
  destruct Hcause as (err & Herr & Hcode). exists err.
  split; [exact Herr|]. split; [exact Hcode|].
  assert (Hreturns : forall w0,
            panicked (http_Error w0 (Error err) (ResponseCode herr)) = false).
  { intros w0. rewrite http_Error_panics.
    replace (checkWriteHeaderCode (ResponseCode herr)) with true
      by (destruct Hcode as [-> | ->]; reflexivity).
    apply andb_false_r. }
  split.
  - intros k ctl e' Ha.
    rewrite (routeFunc_error _ _ _ _ _ Ha).
    exact (translate_returns herr err _ Herr (Hreturns _)).
  - intros i m next e' Hh.
    rewrite (middlewareFunc_error _ _ _ _ _ _ Hh).
    exact (translate_returns herr err _ Herr (Hreturns _)).
Qed.


End AnswerExtras.

(** ** A route without methods *)

Section RouteExtras.

Context {AppState : Type}.

Variable matchTemplate : string -> string -> option (gmap string string).

Implicit Types (e : @Env AppState) (regs : list (@Registration AppState)).

(** X14.  [AddRoute] does not ask for a method: called without one it
    registers the route all the same, with an empty method set, and the
    controller of such a route is never called, whatever the request. *)
Theorem route_without_methods_is_dead regs e k route c :
  routes_of regs !! k = Some (route, c, []) ->
  routes (router (configure regs)) !! k
    = Some {| tpl := route; methods := []; handler := routeFunc k c |} /\
  Invoke (Controller k)
    ∉ trace (state_of (Serve matchTemplate (configure regs) e)).
Proof.
  intros Hk. split.
  { rewrite configure_routes. apply list_lookup_imap_Some.
    now exists (route, c, []). }
  intros Hin.
  assert (Hne : trace (state_of (Serve matchTemplate (configure regs) e))
                <> [])
    by holds_event Hin.
  destruct (Serve_last matchTemplate regs e Hne)
    as (k0 & route0 & c0 & methods0 & vars & j & t0 & ej & s & f & x
        & Hk0 & Hm & Hp & Ht & Hstage & Hans & _).
  rewrite Ht in Hin.
  in_ending Hin.
  - apply (passed_Invoke _ _ _ _ _ _ Hp) in Hin as (i & Hi & _).
    discriminate.
  - injection Hin as <-.
    destruct Hstage as [(Heq & _) | (m & Heq & _)]; [|discriminate].
    injection Heq as ->. rewrite Hk in Hk0. injection Hk0 as _ _ <-.
    now apply elem_of_nil in Hm.
  - subst x. now apply answer_not_Invoke in Hans.
Qed.

End RouteExtras.

(** ** The further properties on the small application *)

Section MoreOnTheSample.

Import Sample Cases.

Local Abbreviation run regs rq :=
  (Serve matchExact (configure regs) (incoming rq)).
Local Abbreviation scanJSON := (ScanJSONBody json_Decode valid_Valid).
Local Abbreviation writeJSON := (WriteJSONResponse json_Marshal).
Local Abbreviation entering rq :=
  ({| env := incoming rq; trace := [] |} : @State unit).

(** The second of three middleware panics after having written: the
    dispatch panics on what it left, and the sink holds what it wrote. *)
Lemma panic_ends_dispatch_witness :
  let res := run faulty getItems in
  Panicked (Middleware 1) (writes "partial" stamped) ∈ trace (state_of res) /\
  res = Panic {| env := writes "partial" stamped;
                 trace := trace (state_of res) |} /\
  Body (sink (env (state_of res))) = "partial".
Proof.
  intros res.
  assert (Hin : Panicked (Middleware 1) (writes "partial" stamped)
                ∈ trace (state_of res))
    by (apply (list_elem_of_lookup_2 _ 3); vm_compute; reflexivity).
  pose proof (panic_ends_dispatch matchExact faulty (incoming getItems))
    as Hthm.
  destruct Hthm as (_ & _ & Hserve). cbv zeta in Hserve.
  destruct (Hserve _ _ Hin) as (Hres & _).
  split; [exact Hin|]. split; [exact Hres|]. vm_compute. reflexivity.
Defined.

(** A controller that fails: the request is the one it left, the sink
    the one it left after [http.Error]. *)
Lemma dispatcher_only_translates_witness :
  let res := run failing getItems in
  last (trace (state_of res))
    = Some (Returned (Controller 0) (Some teapot) stamped) /\
  req (env (state_of res)) = req stamped /\
  app (env (state_of res)) = app stamped /\
  sink (env (state_of res))
    = state_of (http_Error (sink stamped) "I am a teapot" 418).
Proof.
  intros res.
  assert (Hlast : last (trace (state_of res))
                  = Some (Returned (Controller 0) (Some teapot) stamped))
    by (vm_compute; reflexivity).
  split; [exact Hlast|].
  exact (dispatcher_only_translates matchExact failing (incoming getItems)
           _ Hlast).
Defined.

(** The one call of a controller in the record of a served request. *)
Lemma stages_called_at_most_once_witness :
  let t := trace (state_of (run site getItems)) in
  t !! 2%nat = Some (Invoke (Controller 0)) /\
  forall q k2, t !! q = Some (Invoke (Controller k2)) ->
    2%nat = q /\ 0%nat = k2.
Proof.
  intros t.
  assert (H2 : t !! 2%nat = Some (Invoke (Controller 0)))
    by (vm_compute; reflexivity).
  split; [exact H2|]. intros q k2 Hq.
  exact (proj2 (stages_called_at_most_once matchExact site
                  (incoming getItems)) 2%nat q 0%nat k2 H2 Hq).
Defined.

(** The route registered before the middleware, and after it. *)
Lemma registration_kinds_commute_witness :
  middleware_of late = middleware_of site /\
  routes_of late = routes_of site /\
  configure late = configure site /\
  run late getItems = run site getItems.
Proof.
  destruct (proj2 (registration_kinds_commute matchExact) late site
              eq_refl eq_refl) as [Hc Hs].
  split; [reflexivity|]. split; [reflexivity|].
  split; [exact Hc | exact (Hs _)].
Defined.

(** A served request: the middleware is called first, the controller
    after it has passed. *)
Lemma next_stage_is_called_witness :
  let t := trace (state_of (run site getItems)) in
  (exists x,
      answer (Handle stamp) (Middleware 0) (withVars ∅ (incoming getItems)) x /\
      ([] ++ [Invoke (Middleware 0); x]) `prefix_of` t) /\
  exists x,
    answer (Action hello) (Controller 0) stamped x /\
    t = [Invoke (Middleware 0); Returned (Middleware 0) None stamped]
        ++ [Invoke (Controller 0); x].
Proof.
  intros t.
  pose proof (next_stage_is_called matchExact site (incoming getItems)
                0 "/items" hello ["GET"] ∅ eq_refl) as Hthm.
  cbv zeta in Hthm. destruct Hthm as [Hmw Hctl]. split.
  - exact (Hmw 0%nat [] _ stamp (passed_none _ _) eq_refl).
  - apply Hctl.
    apply (passed_next _ _ 0 [] (withVars ∅ (incoming getItems)) stamp
             stamped (passed_none _ _)); reflexivity.
Defined.

(** A controller that holds decoder [5] keeps it; one without a decoder
    gets the new one, once. *)
Lemma getSchemaDecoder_caches_witness :
  (getSchemaDecoder 0%nat holding).1 = 5%nat /\
  (getSchemaDecoder 0%nat holding).2 = holding /\
  getSchemaDecoder 0%nat (getSchemaDecoder 0%nat empty).2
    = (0%nat, {| schemaDecoder := Some 0%nat |}).
Proof.
  pose proof (getSchemaDecoder_caches 0%nat holding) as Hh.
  pose proof (getSchemaDecoder_caches 0%nat empty) as He.
  cbv zeta in Hh, He.
  destruct Hh as (_ & _ & Hkeep & _). destruct He as (_ & Hagain & _).
  destruct (Hkeep 5%nat eq_refl) as [Hd Hc].
  split; [exact Hd|]. split; [exact Hc | exact Hagain].
Defined.

(** After a first scan the controller holds the new decoder, and a
    scan of a form that does not parse leaves it there. *)
Lemma scans_share_one_decoder_witness :
  let c1 := (ScanQuery 0%nat decodeWith URL_Query empty itemSeven 0).1.1 in
  schemaDecoder c1 = Some 0%nat /\
  (ScanForm 0%nat decodeWith ParseForm c1 badForm 0).1.1.1 = c1 /\
  (ScanForm 0%nat decodeWith ParseForm empty badForm 0).1.1.1 = empty.
Proof.
  intros c1.
  pose proof (scans_share_one_decoder 0%nat decodeWith URL_Query ParseForm
                empty itemSeven 0) as Hseven.
  pose proof (scans_share_one_decoder 0%nat decodeWith URL_Query ParseForm
                empty badForm 0) as Hbad.
  cbv zeta in Hseven, Hbad.
  destruct Hseven as ((Hd & Hlater) & _). destruct Hbad as (_ & _ & _ & Hc).
  split; [exact Hd|]. split.
  - exact (proj1 (proj2 (proj2 (Hlater badForm 0)))).
  - apply Hc. discriminate.
Defined.

(** The record [12] fails the validation and is in the record all the
    same. *)
Lemma scans_leave_decoded_record_witness :
  (scanJSON twelve 0).2 <> None /\ (scanJSON twelve 0).1.2 = 12.
Proof.
  split; [discriminate|].
  pose proof (scans_leave_decoded_record (tt : unit) Sample.Decoder_Decode
                URL_Query ParseForm json_Decode valid_Valid fresh twelve 0)
    as Hthm.
  destruct Hthm as (_ & _ & _ & _ & _ & Hrecord & _). exact Hrecord.
Defined.

(** The route variable [n = 7] reaches the decoder as [n = [7]]. *)
Lemma ScanVars_one_value_per_variable_witness :
  exists mVars : gmap string (list string),
    mVars !! "n" = Some ["7"] /\ mVars !! "m" = None /\
    (ScanVars 0%nat decodeWith empty itemSeven 0).1.2
      = (decodeWith 0%nat 0 mVars).1.
Proof.
  destruct (ScanVars_one_value_per_variable 0%nat decodeWith URL_Query
              empty itemSeven 0) as (mVars & Hlook & _ & Hfull & _).
  exists mVars. split; [rewrite Hlook; reflexivity|].
  split; [rewrite Hlook; reflexivity|]. now rewrite Hfull.
Defined.


(** A controller that hands on the Error Model of [WriteJSONResponse]. *)
Lemma helper_errors_are_translated_witness :
  let herr := {| ResponseCode := 500;
                 Err := Some (errors_New "unsupported value") |} in
  writeJSON NewResponseWriter (-1) None
    = Return (Some herr) NewResponseWriter /\
  routeFunc 0 unencodable (entering getItems) =
  Return tt
    {| env := {| sink := state_of (http_Error NewResponseWriter
                                     "unsupported value" 500);
                 req := getItems; app := tt |};
       trace := [Invoke (Controller 0);
                 Returned (Controller 0) (Some herr) (incoming getItems)] |}.
Proof.
  intros herr.
  assert (Hret : writeJSON NewResponseWriter (-1) None
                 = Return (Some herr) NewResponseWriter) by reflexivity.
  split; [exact Hret|].
  destruct (helper_errors_are_translated (tt : unit) Sample.Decoder_Decode
              URL_Query ParseForm json_Decode json_Marshal valid_Valid
              fresh getItems (-1) NewResponseWriter None herr
              (entering getItems)
              (or_intror (ex_intro _ NewResponseWriter Hret)))
    as (err & Herr & _ & Hctl & _).
  injection Herr as <-.
  exact (Hctl 0%nat unencodable (incoming getItems) eq_refl).
Defined.


(** A route registered without a method: a [GET] on its path goes to
    the route registered after it. *)
Lemma route_without_methods_is_dead_witness :
  routes_of dead !! 0%nat = Some ("/items", hello, []) /\
  (Invoke (Controller 0) ∉ trace (state_of (run dead getItems))) /\
  Invoke (Controller 1) ∈ trace (state_of (run dead getItems)).
Proof.
  assert (Hk : routes_of dead !! 0%nat = Some ("/items", hello, []))
    by reflexivity.
  split; [exact Hk|]. split.
  - exact (proj2 (route_without_methods_is_dead matchExact dead
                    (incoming getItems) 0 "/items" hello Hk)).
  - apply (list_elem_of_lookup_2 _ 0). vm_compute. reflexivity.
Defined.

End MoreOnTheSample.
